(** * A verified model of the Tiny URL Shortener (src/app.py)

    The development embeds the request-handling core of the single-file
    Flask + SQLite application: [validate_and_normalize_url],
    [generate_code], and the views [shorten], [redirect_code] and [stats],
    together with the parts of the Python runtime they call
    ([str.strip], [str.isalnum], [urllib.parse.urlparse], [secrets.choice],
    the [sqlite3] connection).

    Conventions of the embedding:
    - A Python [str] is a [string] whose characters are the code points
      U+0000..U+00FF (Latin-1); [ord] gives the code point.  Character
      classes ([isspace], [isalnum], ...) are CPython's, restricted to that
      range.
    - A Python exception is a value [Err e]; a view that does not finish
      within the given number of loop iterations yields [None].
    - The table [urls] is a finite map from [code] to the remaining columns;
      the SQL statements of the source are the operations of section
      "The sqlite3 connection".  INTEGER columns are mathematical integers
      (SQLite's 64-bit limit of 2^63-1 clicks is outside the model). *)

From Stdlib Require Import ZArith NArith Ascii String HexString List Bool Lia.
From stdpp Require Import base option list gmap strings.

Open Scope string_scope.

(** ** Exceptions and results *)

Inductive exn :=
  | ValueError          (* urllib.parse / ipaddress; a header value with CR or LF *)
  | IndexError          (* secrets.choice on an empty sequence *)
  | OperationalError    (* sqlite3: the statement could not be executed *)
  | IntegrityError      (* sqlite3: PRIMARY KEY constraint failed *)
  | ProgrammingError.   (* sqlite3: no open connection *)

Inductive result (A : Type) :=
  | Ok (a : A)
  | Err (e : exn).
Arguments Ok {A} a.
Arguments Err {A} e.

#[global] Instance result_ret : MRet result := fun A a => Ok a.
#[global] Instance result_bind : MBind result := fun A B f r =>
  match r with
  | Ok a => f a
  | Err e => Err e
  end.

(** ** Python [str] on Latin-1 text *)

Definition ord (c : ascii) : N := N_of_ascii c.
Definition chr (n : N) : ascii := ascii_of_N n.

Definition between (lo hi : N) (c : ascii) : bool :=
  ((lo <=? ord c) && (ord c <=? hi))%N.

Definition isascii (c : ascii) : bool := (ord c <? 128)%N.
Definition is_ascii_digit (c : ascii) : bool := between 48 57 c.
Definition is_ascii_upper (c : ascii) : bool := between 65 90 c.
Definition is_ascii_lower (c : ascii) : bool := between 97 122 c.
Definition is_ascii_letter (c : ascii) : bool := is_ascii_upper c || is_ascii_lower c.

(** [c.isspace()]: TAB..CR, FS..US, SPACE, NEL and NBSP are the whitespace
    characters below U+0100. *)
Definition isspace (c : ascii) : bool :=
  between 9 13 c || between 28 32 c || (ord c =? 133)%N || (ord c =? 160)%N.

(** [c.isalpha()]: general category L*.  Below U+0100 these are the ASCII
    letters, FEMININE/MASCULINE ORDINAL INDICATOR, MICRO SIGN and the
    letters U+00C0..U+00FF without the signs U+00D7 and U+00F7. *)
Definition isalpha (c : ascii) : bool :=
  is_ascii_letter c
  || (ord c =? 170)%N || (ord c =? 181)%N || (ord c =? 186)%N
  || between 192 214 c || between 216 246 c || between 248 255 c.

(** [c.isdecimal()], [c.isdigit()], [c.isnumeric()]: below U+0100 the
    decimals are 0-9, the digits add the superscripts one, two, three, and
    the numerics add the vulgar fractions U+00BC..U+00BE. *)
Definition isdecimal (c : ascii) : bool := is_ascii_digit c.
Definition isdigit (c : ascii) : bool :=
  isdecimal c || (ord c =? 178)%N || (ord c =? 179)%N || (ord c =? 185)%N.
Definition isnumeric (c : ascii) : bool := isdigit c || between 188 190 c.

(** [c.isalnum()] is [isalpha or isdecimal or isdigit or isnumeric]. *)
Definition isalnum (c : ascii) : bool :=
  isalpha c || isdecimal c || isdigit c || isnumeric c.

(** [c.lower()] on the characters that can occur in a scheme (ASCII). *)
Definition ascii_lower (c : ascii) : ascii :=
  if is_ascii_upper c then chr (ord c + 32) else c.

Module Str.

Fixpoint all (p : ascii → bool) (s : string) : bool :=
  match s with
  | "" => true
  | String c t => p c && all p t
  end.

Fixpoint contains (c : ascii) (s : string) : bool :=
  match s with
  | "" => false
  | String a t => Ascii.eqb a c || contains c t
  end.

Fixpoint map (f : ascii → ascii) (s : string) : string :=
  match s with
  | "" => ""
  | String c t => String (f c) (map f t)
  end.

(** [s.replace(c, "")] for every [c] with [p c]. *)
Fixpoint remove (p : ascii → bool) (s : string) : string :=
  match s with
  | "" => ""
  | String c t => if p c then remove p t else String c (remove p t)
  end.

(** [s.lstrip(chars)] and [s.rstrip(chars)], the set given as a test. *)
Fixpoint lstrip (p : ascii → bool) (s : string) : string :=
  match s with
  | "" => ""
  | String c t => if p c then lstrip p t else s
  end.

Fixpoint rstrip (p : ascii → bool) (s : string) : string :=
  match s with
  | "" => ""
  | String c t =>
      match rstrip p t with
      | "" => if p c then "" else String c ""
      | t' => String c t'
      end
  end.

(** [s.strip()] without argument strips whitespace on both sides. *)
Definition strip (s : string) : string := rstrip isspace (lstrip isspace s).

(** Slices [s[:n]], [s[n:]] and [s[a:b]] for non-negative indices. *)
Fixpoint slice_to (n : nat) (s : string) : string :=
  match n, s with
  | S n', String c t => String c (slice_to n' t)
  | _, _ => ""
  end.

Fixpoint slice_from (n : nat) (s : string) : string :=
  match n, s with
  | S n', String _ t => slice_from n' t
  | _, _ => s
  end.

Definition slice (a b : nat) (s : string) : string :=
  slice_to (b - a) (slice_from a s).

(** [s.find(c)] and [s.find(c, start)]; [None] is Python's [-1]. *)
Fixpoint find (c : ascii) (s : string) : option nat :=
  match s with
  | "" => None
  | String a t => if Ascii.eqb a c then Some 0 else S <$> find c t
  end.

Definition find_from (c : ascii) (start : nat) (s : string) : option nat :=
  (λ i, start + i) <$> find c (slice_from start s).

Definition startswith (pre s : string) : bool :=
  String.eqb (slice_to (String.length pre) s) pre.

(** [s.partition(c)]: text before the first [c], whether [c] was found,
    text after it. *)
Definition partition (c : ascii) (s : string) : string * bool * string :=
  match find c s with
  | Some i => (slice_to i s, true, slice_from (S i) s)
  | None => (s, false, "")
  end.

(** [s.rpartition(c)[2]]: the text after the last [c], or all of [s]. *)
Fixpoint after_last (c : ascii) (s : string) : string :=
  match s with
  | "" => ""
  | String a t =>
      if contains c t then after_last c t
      else if Ascii.eqb a c then t else s
  end.

(** [s.split(c)]. *)
Fixpoint split (c : ascii) (s : string) : list string :=
  match s with
  | "" => [""]
  | String a t =>
      if Ascii.eqb a c then "" :: split c t
      else match split c t with
           | p :: ps => String a p :: ps
           | [] => [String a ""]
           end
  end.

End Str.

(** ** [urllib.parse.urlparse] (CPython 3.11 with the 2023 security fixes) *)

Definition scheme_chars (c : ascii) : bool :=
  is_ascii_lower c || is_ascii_upper c || is_ascii_digit c
  || Ascii.eqb c "+" || Ascii.eqb c "-" || Ascii.eqb c ".".

(** [_WHATWG_C0_CONTROL_OR_SPACE]: U+0000..U+0020. *)
Definition WHATWG_C0_CONTROL_OR_SPACE (c : ascii) : bool := between 0 32 c.

(** [_UNSAFE_URL_BYTES_TO_REMOVE = ['\t', '\r', '\n']]. *)
Definition UNSAFE_URL_BYTES_TO_REMOVE (c : ascii) : bool :=
  (ord c =? 9)%N || (ord c =? 13)%N || (ord c =? 10)%N.

(** [_splitnetloc(url, start)]: the authority ends at the first of "/?#". *)
Definition splitnetloc (url : string) (start : nat) : string * string :=
  let delim :=
    foldl (λ delim c,
             match Str.find_from c start url with
             | Some wdelim => Nat.min delim wdelim
             | None => delim
             end)
          (String.length url) ["/"; "?"; "#"]%char in
  (Str.slice start delim url, Str.slice_from delim url).

(** *** [ipaddress]: which strings denote an address

    Only whether the constructor succeeds matters to [urlsplit], so the
    parsers return a [bool] ([false] is [AddressValueError]). *)

Definition decimal_value (s : string) : N :=
  foldl (λ acc c, acc * 10 + (ord c - 48))%N 0%N (list_ascii_of_string s).

(** [IPv4Address._parse_octet]. *)
Definition parse_octet (octet_str : string) : bool :=
  negb (String.eqb octet_str "")
  && Str.all (λ c, isascii c && isdigit c) octet_str
  && (String.length octet_str <=? 3)%nat
  && negb (negb (String.eqb octet_str "0") && Str.startswith "0" octet_str)
  && (decimal_value octet_str <=? 255)%N.

(** [IPv4Address(address)] for a string. *)
Definition IPv4Address (address : string) : bool :=
  negb (Str.contains "/" address)
  && negb (String.eqb address "")
  && (let octets := Str.split "." address in
      (length octets =? 4)%nat && forallb parse_octet octets).

(** The value of a valid dotted quad, for the IPv4-style suffix of an IPv6
    address. *)
Definition ipv4_int (address : string) : N :=
  foldl (λ acc o, acc * 256 + decimal_value o)%N 0%N (Str.split "." address).

(** ['%x' % n]. *)
Definition hex (n : N) : string := Str.slice_from 2 (HexString.of_N n).

Definition HEX_DIGITS (c : ascii) : bool :=
  is_ascii_digit c || between 65 70 c || between 97 102 c.

(** [IPv6Address._parse_hextet]; [int("", 16)] raises. *)
Definition parse_hextet (hextet_str : string) : bool :=
  Str.all HEX_DIGITS hextet_str
  && (String.length hextet_str <=? 4)%nat
  && negb (String.eqb hextet_str "").

Definition HEXTET_COUNT : nat := 8.

(** [IPv6Address._ip_int_from_string]. *)
Definition ip6_int_from_string (ip_str : string) : bool :=
  if String.eqb ip_str "" then false else
  let parts := Str.split ":" ip_str in
  if (length parts <? 3)%nat then false else
  let parts' :=
    let tail := List.last parts "" in
    if Str.contains "." tail then
      if IPv4Address tail then
        Some (removelast parts
              ++ [hex (N.land (N.shiftr (ipv4_int tail) 16) 65535);
                  hex (N.land (ipv4_int tail) 65535)])%list
      else None
    else Some parts in
  match parts' with
  | None => false
  | Some parts =>
      let n := length parts in
      if (HEXTET_COUNT + 1 <? n)%nat then false else
      let empty_at i := String.eqb (nth i parts "x") "" in
      match filter (λ i, empty_at i = true) (seq 1 (n - 2)) with
      | _ :: _ :: _ => false                       (* more than one "::" *)
      | [skip_index] =>
          let parts_hi := skip_index in
          let parts_lo := n - skip_index - 1 in
          let lead := empty_at 0 in
          let trail := empty_at (n - 1) in
          let parts_hi := if lead then parts_hi - 1 else parts_hi in
          let parts_lo := if trail then parts_lo - 1 else parts_lo in
          if lead && negb (parts_hi =? 0)%nat then false
          else if trail && negb (parts_lo =? 0)%nat then false
          else if (HEXTET_COUNT <=? parts_hi + parts_lo)%nat then false
          else forallb parse_hextet (take parts_hi parts)
               && forallb parse_hextet (drop (n - parts_lo) parts)
      | [] =>
          if negb (n =? HEXTET_COUNT)%nat then false
          else if empty_at 0 then false
          else if empty_at (n - 1) then false
          else forallb parse_hextet parts
      end
  end.

(** [IPv6Address._split_scope_id]: the address part, if the scope is
    well-formed. *)
Definition split_scope_id (ip_str : string) : option string :=
  let '(addr, sep, scope_id) := Str.partition "%" ip_str in
  if negb sep then Some addr
  else if String.eqb scope_id "" || Str.contains "%" scope_id then None
  else Some addr.

(** [IPv6Address(address)] for a string. *)
Definition IPv6Address (address : string) : bool :=
  negb (Str.contains "/" address)
  && match split_scope_id address with
     | Some addr_str => ip6_int_from_string addr_str
     | None => false
     end.

(** [re.match(r"\Av[a-fA-F0-9]+\..+\Z", hostname)]; [.] matches every
    character but the newline. *)
Definition ipvfuture_match (hostname : string) : bool :=
  match hostname with
  | String "v" rest =>
      match Str.lstrip HEX_DIGITS rest with
      | String "." (String c after) =>
          negb (String.eqb (Str.lstrip HEX_DIGITS rest) rest)
          && Str.all (λ c, negb (ord c =? 10)%N) (String c after)
      | _ => false
      end
  | _ => false
  end.

(** [_check_bracketed_host]: [ipaddress.ip_address] tries IPv4 first, and
    an IPv4 address in brackets is refused. *)
Definition check_bracketed_host (hostname : string) : result unit :=
  if Str.startswith "v" hostname then
    if ipvfuture_match hostname then Ok () else Err ValueError
  else if IPv4Address hostname then Err ValueError
  else if IPv6Address hostname then Ok ()
  else Err ValueError.

(** [_check_bracketed_netloc]. *)
Definition check_bracketed_netloc (netloc : string) : result unit :=
  let hostname_and_port := Str.after_last "@" netloc in
  let '(before_bracket, have_open_br, bracketed) :=
    Str.partition "[" hostname_and_port in
  if have_open_br then
    if negb (String.eqb before_bracket "") then Err ValueError else
    let '(hostname, _, port) := Str.partition "]" bracketed in
    if negb (String.eqb port "") && negb (Str.startswith ":" port)
    then Err ValueError
    else check_bracketed_host hostname
  else
    let '(hostname, _, _) := Str.partition ":" hostname_and_port in
    check_bracketed_host hostname.

(** *** [urlsplit] and [urlparse]

    [urlsplit(url)] with the default [scheme=''] and [allow_fragments=True];
    the result is the 5-tuple (scheme, netloc, path, query, fragment).
    [_checknetloc] looks for "/?#@:" in the NFKC form of a non-ASCII
    netloc; the NFKC form of text below U+0100 adds none of them, so it
    never raises here. *)
Definition urlsplit (url : string)
  : result (string * string * string * string * string) :=
  let url := Str.lstrip WHATWG_C0_CONTROL_OR_SPACE url in
  let url := Str.remove UNSAFE_URL_BYTES_TO_REMOVE url in
  let '(scheme, url) :=
    match Str.find ":" url, url with
    | Some (S i), String c0 _ =>          (* i > 0 *)
        if isascii c0 && isalpha c0
           && Str.all scheme_chars (Str.slice_to (S i) url)
        then (Str.map ascii_lower (Str.slice_to (S i) url),
              Str.slice_from (S (S i)) url)
        else ("", url)
    | _, _ => ("", url)
    end in
  '(netloc, url) ←
    (if String.eqb (Str.slice_to 2 url) "//" then
       let '(netloc, url) := splitnetloc url 2 in
       let open_br := Str.contains "[" netloc in
       let close_br := Str.contains "]" netloc in
       if (open_br && negb close_br) || (close_br && negb open_br)
       then Err ValueError
       else if open_br && close_br
       then _ ← check_bracketed_netloc netloc; Ok (netloc, url)
       else Ok (netloc, url)
     else Ok ("", url));
  let '(url, fragment) :=
    if Str.contains "#" url
    then let '(a, _, b) := Str.partition "#" url in (a, b)
    else (url, "") in
  let '(url, query) :=
    if Str.contains "?" url
    then let '(a, _, b) := Str.partition "?" url in (a, b)
    else (url, "") in
  Ok (scheme, netloc, url, query, fragment).

Definition uses_params : list string :=
  [""; "ftp"; "hdl"; "prospero"; "http"; "imap"; "https"; "shttp"; "rtsp";
   "rtspu"; "sip"; "sips"; "mms"; "sftp"; "tel"].

(** [_splitparams(url)], called when [';' in url]. *)
Definition splitparams (url : string) : string * string :=
  let cut i := (Str.slice_to i url, Str.slice_from (S i) url) in
  if Str.contains "/" url then
    let last_slash := String.length url - String.length (Str.after_last "/" url) - 1 in
    match Str.find_from ";" last_slash url with
    | Some i => cut i
    | None => (url, "")
    end
  else
    match Str.find ";" url with
    | Some i => cut i
    | None => (url, "")
    end.

Record ParseResult := {
  scheme : string;
  netloc : string;
  path : string;
  params : string;
  query : string;
  fragment : string
}.

Definition urlparse (url : string) : result ParseResult :=
  '(scheme, netloc, url, query, fragment) ← urlsplit url;
  let '(url, params) :=
    if bool_decide (scheme ∈ uses_params) && Str.contains ";" url
    then splitparams url
    else (url, "") in
  Ok {| scheme := scheme; netloc := netloc; path := url; params := params;
        query := query; fragment := fragment |}.

(** [c.lower()] for a character below U+0100: the ASCII capitals and the
    capitals U+00C0..U+00DE (without U+00D7) have their small letter 32
    further. *)
Definition lower (c : ascii) : ascii :=
  if is_ascii_upper c || between 192 214 c || between 216 222 c
  then chr (ord c + 32) else c.

(** [ParseResult._hostinfo[0]]: the host part of the authority, without
    user information, brackets and port. *)
Definition hostinfo_host (netloc : string) : string :=
  let hostinfo := Str.after_last "@" netloc in
  let '(_, have_open_br, bracketed) := Str.partition "[" hostinfo in
  if have_open_br then
    let '(hostname, _, _) := Str.partition "]" bracketed in hostname
  else
    let '(hostname, _, _) := Str.partition ":" hostinfo in hostname.

(** [ParseResult.hostname]; [None] is Python's [None], returned for an
    empty host part. *)
Definition hostname (p : ParseResult) : option string :=
  let hostname := hostinfo_host (netloc p) in
  if String.eqb hostname "" then None
  else
    let '(hostname, percent, zone) := Str.partition "%" hostname in
    Some (Str.map lower hostname +:+ (if percent then "%" else "") +:+ zone).

(** ** Utility functions of the application *)

(** [validate_and_normalize_url(url)]: [Ok None] is Python's [return None];
    a missing payload field arrives as [None]. *)
Definition validate_and_normalize_url (url : option string)
  : result (option string) :=
  match url with
  | None | Some "" => Ok None                        (* if not url *)
  | Some url =>
      let url := Str.strip url in
      parsed ← urlparse url;
      '(url, parsed) ←
        (if String.eqb (scheme parsed) "" then
           let url := "http://" +:+ url in
           parsed ← urlparse url; Ok (url, parsed)
         else Ok (url, parsed));
      if negb (bool_decide (scheme parsed ∈ ["http"; "https"])) then Ok None
      else if String.eqb (netloc parsed) "" then Ok None
      else Ok (Some url)
  end.

(** ** The environment of a request

    [disk] is the committed content of table [urls] (key: column [code]);
    [conn] is [g.db]: absent, or an open connection with the rows as it
    sees them (the committed ones and its own uncommitted writes).
    [faults] says for each coming SQL statement or commit whether SQLite
    fails on it (an exhausted list means no further failure); [entropy]
    are the values the operating system's random source will deliver and
    [drawn] counts those consumed. *)

Record UrlRecord := {
  url : string;
  created_at : Z;
  clicks : Z
}.

Record world := {
  disk : gmap string UrlRecord;
  conn : option (gmap string UrlRecord);
  faults : list bool;
  entropy : nat → nat;
  drawn : nat
}.

Definition set_disk (t : gmap string UrlRecord) (w : world) : world :=
  {| disk := t; conn := conn w; faults := faults w;
     entropy := entropy w; drawn := drawn w |}.
Definition set_conn (c : option (gmap string UrlRecord)) (w : world) : world :=
  {| disk := disk w; conn := c; faults := faults w;
     entropy := entropy w; drawn := drawn w |}.
Definition set_faults (fs : list bool) (w : world) : world :=
  {| disk := disk w; conn := conn w; faults := fs;
     entropy := entropy w; drawn := drawn w |}.
Definition set_drawn (n : nat) (w : world) : world :=
  {| disk := disk w; conn := conn w; faults := faults w;
     entropy := entropy w; drawn := n |}.

(** A computation in a request: it may finish with a value or an
    exception and a new environment, or not finish ([None]). *)
Definition M (A : Type) : Type := world → option (result A * world).

#[global] Instance M_ret : MRet M := λ A a w, Some (Ok a, w).
#[global] Instance M_bind : MBind M := λ A B f m w,
  match m w with
  | Some (Ok a, w') => f a w'
  | Some (Err e, w') => Some (Err e, w')
  | None => None
  end.

Definition raise {A} (e : exn) : M A := λ w, Some (Err e, w).
Definition diverge {A} : M A := λ _, None.
Definition lift {A} (r : result A) : M A := λ w, Some (r, w).
Definition gets {A} (f : world → A) : M A := λ w, Some (Ok (f w), w).
Definition modify (f : world → world) : M unit := λ w, Some (Ok (), f w).

(** ** The sqlite3 connection *)

(** [get_db()]: connect unless [g] already holds a connection (opening
    the database file is taken to succeed). *)
Definition get_db : M unit :=
  modify (λ w, match conn w with
               | None => set_conn (Some (disk w)) w
               | Some _ => w
               end).

(** [close_db(exc)], the teardown of the application context: closing
    the connection discards what it did not commit. *)
Definition close_db (w : world) : world := set_conn None w.

(** Sending a statement (or a commit) to SQLite consumes one entry of the
    fault plan. *)
Definition statement : M unit := λ w,
  match faults w with
  | true :: fs => Some (Err OperationalError, set_faults fs w)
  | false :: fs => Some (Ok (), set_faults fs w)
  | [] => Some (Ok (), w)
  end.

(** The rows seen through [g.db]. *)
Definition connection : M (gmap string UrlRecord) := λ w,
  match conn w with
  | Some t => Some (Ok t, w)
  | None => Some (Err ProgrammingError, w)
  end.

(** [db.execute('SELECT ... FROM urls WHERE code = ?', (code,)).fetchone()] *)
Definition execute_select (code : string) : M (option UrlRecord) :=
  t ← connection; _ ← statement; mret (t !! code).

(** [db.execute('INSERT INTO urls (code, url, created_at, clicks)
    VALUES (?, ?, ?, ?)', ...)]; [code] is the primary key. *)
Definition execute_insert (code : string) (row : UrlRecord) : M unit :=
  t ← connection; _ ← statement;
  match t !! code with
  | Some _ => raise IntegrityError
  | None => modify (set_conn (Some (<[code := row]> t)))
  end.

(** [db.execute('UPDATE urls SET clicks = clicks + 1 WHERE code = ?', ...)] *)
Definition execute_update_clicks (code : string) : M unit :=
  t ← connection; _ ← statement;
  modify (set_conn (Some (alter (λ row, {| url := url row;
                                           created_at := created_at row;
                                           clicks := clicks row + 1 |})
                                code t))).

(** [db.commit()] *)
Definition commit : M unit :=
  t ← connection; _ ← statement; modify (set_disk t).

(** ** The random source *)

(** [secrets.randbelow(n)] for [n > 0]. *)
Definition randbelow (n : nat) : M nat := λ w,
  Some (Ok (entropy w (drawn w) mod n), set_drawn (S (drawn w)) w).

(** [secrets.choice(seq)] is [seq[randbelow(len(seq))]]. *)
Definition choice (seq : string) : M ascii :=
  match seq with
  | "" => raise IndexError
  | _ =>
      i ← randbelow (String.length seq);
      match String.get i seq with
      | Some c => mret c
      | None => raise IndexError
      end
  end.

(** ** Configuration *)

Definition SHORT_CODE_LENGTH : nat := 6.
Definition ascii_letters : string :=
  "abcdefghijklmnopqrstuvwxyzABCDEFGHIJKLMNOPQRSTUVWXYZ".
Definition digits : string := "0123456789".
Definition ALPHABET : string := ascii_letters +:+ digits.

(** ** [generate_code] *)

(** [''.join(secrets.choice(ALPHABET) for _ in range(length))] *)
Fixpoint join_choices (length : nat) : M string :=
  match length with
  | 0 => mret ""
  | S n => c ← choice ALPHABET; s ← join_choices n; mret (String c s)
  end.

(** The [while True] loop runs for at most [fuel] iterations. *)
Fixpoint generate_code (fuel : nat) (length : nat) : M string :=
  match fuel with
  | 0 => diverge
  | S fuel =>
      code ← join_choices length;
      _ ← get_db;
      cur ← execute_select code;
      match cur with
      | None => mret code
      | Some _ => generate_code fuel length
      end
  end.

(** ** Requests and responses *)

(** The JSON values that occur in the responses, and a JSON object as
    the list of its members. *)
Inductive json :=
  | JString (s : string)
  | JNumber (n : Z)
  | JDatetime (t : Z).

(** What a view returns: a string body, [jsonify(...)], or
    [redirect(location)]; paired with the status code. *)
Inductive body :=
  | Text (s : string)
  | Json (members : list (string * json))
  | Location (target : string).

(** [(body, status)] *)
Definition response : Type := body * Z.

Definition jsonify (members : list (string * json)) : body := Json members.

(** [flask.redirect(location)] with its default [code=302]: a response
    whose Location header is the string the view passes.  Setting a header
    to a value that holds CR or LF raises [ValueError] (Werkzeug refuses
    newline characters in header values); how the WSGI layer encodes the
    header afterwards is outside the embedding. *)
Definition redirect (location : string) : result response :=
  if Str.contains (chr 13) location || Str.contains (chr 10) location
  then Err ValueError
  else Ok (Location location, 302%Z).

(** The body of [POST /shorten] ([request.get_json()] or the form as a
    dict) and [request.host_url].  The fields [url] and [custom] are absent
    or strings, as a form and the page's script send them; a JSON body that
    is no object, or holds another type of value there, is outside the
    embedding. *)
Record request := {
  host_url : string;
  payload_url : option string;       (* payload.get('url') *)
  payload_custom : option string     (* payload.get('custom') *)
}.

(** Truth value of an optional string: [None] and [''] are false. *)
Definition truthy (s : option string) : bool :=
  match s with
  | None | Some "" => false
  | Some _ => true
  end.

(** [c.isalnum() or c in ('-','_')] *)
Definition custom_char (c : ascii) : bool :=
  isalnum c || bool_decide (c ∈ ["-"; "_"]%char).

(** ** Routes *)

(** [POST /shorten]; [now] is the value of [datetime.utcnow()]. *)
Definition shorten (fuel : nat) (now : Z) (request : request) : M response :=
  let original := payload_url request in
  let custom := payload_custom request in
  url ← lift (validate_and_normalize_url original);
  if negb (truthy url) then
    mret (jsonify [("error", JString "Invalid URL")], 400%Z)
  else
    let url := default "" url in
    let custom_code := default "" custom in
    _ ← get_db;
    let insert code :=
      _ ← execute_insert code {| url := url; created_at := now; clicks := 0 |};
      _ ← commit;
      let short_url := Str.rstrip (Ascii.eqb "/") (host_url request) +:+ "/" +:+ code in
      mret (jsonify [("short_url", JString short_url)], 201%Z) in
    if truthy custom then
      if negb (Str.all custom_char custom_code) then
        mret (jsonify [("error", JString "Invalid characters in custom code")], 400%Z)
      else
        cur ← execute_select custom_code;
        match cur with
        | Some _ => mret (jsonify [("error", JString "Custom code in use")], 409%Z)
        | None => insert custom_code
        end
    else
      code ← generate_code fuel SHORT_CODE_LENGTH;
      insert code.

(** [GET /<code>] *)
Definition redirect_code (code : string) : M response :=
  _ ← get_db;
  row ← execute_select code;
  match row with
  | None => mret (Text "Not found", 404%Z)
  | Some row =>
      _ ← execute_update_clicks code;
      _ ← commit;
      lift (redirect (url row))
  end.

(** [GET /stats/<code>]; [dict(row)] has the selected columns, and a view
    that returns only a body answers with status 200. *)
Definition stats (code : string) : M response :=
  _ ← get_db;
  row ← execute_select code;
  match row with
  | None => mret (jsonify [("error", JString "Not found")], 404%Z)
  | Some row =>
      mret (jsonify [("code", JString code);
                     ("url", JString (url row));
                     ("created_at", JDatetime (created_at row));
                     ("clicks", JNumber (clicks row))], 200%Z)
  end.

(** ** Serving requests

    Every request runs in an application context of its own: [g] starts
    without a connection, and [close_db] runs when the context is torn
    down, whether the view returned or raised. *)
Definition serve {A} (view : M A) : M A := λ w,
  match view (set_conn None w) with
  | Some (r, w') => Some (r, close_db w')
  | None => None
  end.

(** The three routes with their arguments; a request is the call of its
    view function. *)
Inductive call :=
  | POST_shorten (now : Z) (request : request)
  | GET_code (code : string)
  | GET_stats (code : string).

Definition handle (fuel : nat) (c : call) : M response :=
  serve match c with
        | POST_shorten now request => shorten fuel now request
        | GET_code code => redirect_code code
        | GET_stats code => stats code
        end.

(** The server state after a sequence of requests (from first to last), if
    all of them finish. *)
Fixpoint run (fuel : nat) (cs : list call) (w : world) : option world :=
  match cs with
  | [] => Some w
  | c :: cs =>
      match handle fuel c w with
      | Some (_, w') => run fuel cs w'
      | None => None
      end
  end.

(** A freshly started server: [init_db] found no table and created it. *)
Definition fresh (fs : list bool) (e : nat → nat) : world :=
  {| disk := ∅; conn := None; faults := fs; entropy := e; drawn := 0 |}.

(** * Specification vocabulary

    Notions used to state the properties: views of the environment,
    closed forms of what the loop and the views compute, reachable states,
    and the two claims of the specification that the code does not meet. *)

(** The rows a statement sees: those of the open connection, or the
    committed ones when a connection is yet to be opened. *)
Definition table (w : world) : gmap string UrlRecord :=
  match conn w with
  | Some t => t
  | None => disk w
  end.

(** The next [n] statements succeed. *)
Definition available (n : nat) (fs : list bool) : bool := forallb negb (take n fs).

(** No statement fails any more. *)
Definition quiet (fs : list bool) : bool := forallb negb fs.

(** The effect of [SET clicks = clicks + 1] on a row. *)
Definition click (row : UrlRecord) : UrlRecord :=
  {| url := url row; created_at := created_at row; clicks := clicks row + 1 |}.

(** The environment after a request: table [d], no connection, fault plan
    [fs]; the random source is that of [w]. *)
Definition between_requests (d : gmap string UrlRecord) (fs : list bool) (w : world) : world :=
  {| disk := d; conn := None; faults := fs; entropy := entropy w; drawn := drawn w |}.

(** Best-effort redirect as the specification words it: the lookup
    succeeds, the UPDATE fails, and the client is redirected all the same. *)
Definition redirect_is_best_effort : Prop :=
  ∀ (fuel : nat) (code : string) (row : UrlRecord) (w : world),
    disk w !! code = Some row →
    hd false (faults w) = false →
    hd false (drop 1 (faults w)) = true →
    ∃ w', handle fuel (GET_code code) w = Some (Ok (Location (url row), 302%Z), w').

(** Concrete data for examples. *)
Definition example_row : UrlRecord :=
  {| url := "http://example.com"; created_at := 0; clicks := 0 |}.

(** [validate_and_normalize_url] from the line after [url = url.strip()]. *)
Definition validate_stripped (url : string) : result (option string) :=
  parsed ← urlparse url;
  '(url, parsed) ←
    (if String.eqb (scheme parsed) "" then
       let url := "http://" +:+ url in
       parsed ← urlparse url; Ok (url, parsed)
     else Ok (url, parsed));
  if negb (bool_decide (scheme parsed ∈ ["http"; "https"])) then Ok None
  else if String.eqb (netloc parsed) "" then Ok None
  else Ok (Some url).

(** [ALPHABET[i]] *)
Definition alphabet_at (i : nat) : ascii := default "000"%char (String.get i ALPHABET).

(** The string that [length] draws produce from position [pos] of the
    random source. *)
Fixpoint draw (e : nat → nat) (pos length : nat) : string :=
  match length with
  | 0 => ""
  | S n => String (alphabet_at (e pos mod 62)) (draw e (S pos) n)
  end.

(** The code tried in iteration [k] (from 0) of the loop started in [w]. *)
Definition candidate (w : world) (length k : nat) : string :=
  draw (entropy w) (drawn w + k * length) length.

(** The environment after an iteration: connected, one statement and
    [length] random values further. *)
Definition after_attempts (w : world) (length k : nat) : world :=
  {| disk := disk w; conn := Some (table w); faults := drop k (faults w);
     entropy := entropy w; drawn := drawn w + k * length |}.

(** [c in ALPHABET] *)
Definition in_ALPHABET (c : ascii) : bool := Str.contains c ALPHABET.

(** The last three lines of [shorten]: INSERT, commit, 201. *)
Definition persist (now : Z) (request : request) (url code : string) : M response :=
  _ ← execute_insert code {| url := url; created_at := now; clicks := 0 |};
  _ ← commit;
  let short_url := Str.rstrip (Ascii.eqb "/") (host_url request) +:+ "/" +:+ code in
  mret (jsonify [("short_url", JString short_url)], 201%Z).

(** [shorten] from [db = get_db()] on, the connection being open. *)
Definition shorten_tail (fuel : nat) (now : Z) (request : request) (url : string)
  : M response :=
  if truthy (payload_custom request) then
    if negb (Str.all custom_char (default "" (payload_custom request))) then
      mret (jsonify [("error", JString "Invalid characters in custom code")], 400%Z)
    else
      cur ← execute_select (default "" (payload_custom request));
      match cur with
      | Some _ => mret (jsonify [("error", JString "Custom code in use")], 409%Z)
      | None => persist now request url (default "" (payload_custom request))
      end
  else
    code ← generate_code fuel SHORT_CODE_LENGTH;
    persist now request url code.

(** The 201 response of [shorten] for [code]. *)
Definition created (now : Z) (request : request) (code : string) : result response :=
  Ok (jsonify [("short_url",
                JString (Str.rstrip (Ascii.eqb "/") (host_url request) +:+ "/" +:+ code))],
      201%Z).

(** The request was answered with status 201. *)
Definition is_created (out : result response) : Prop :=
  ∃ b, out = Ok (b, 201%Z).

(** A request to shorten "example.com" without a custom code. *)
Definition example_request : request :=
  {| host_url := "http://localhost:5000/";
     payload_url := Some "example.com";
     payload_custom := None |}.

(** The states of a server that started with an empty table and served
    any sequence of requests, each finishing within some number [fuel] of
    loop iterations. *)
Inductive reachable : world → Prop :=
  | reachable_fresh (fs : list bool) (e : nat → nat) : reachable (fresh fs e)
  | reachable_step (fuel : nat) (c : call) (w : world) out (w' : world) :
      reachable w → handle fuel c w = Some (out, w') → reachable w'.

(** How [shorten] came by the code of a row it created. *)
Definition code_origin (req : request) (code : string) : Prop :=
  if truthy (payload_custom req)
  then payload_custom req = Some code ∧ Str.all custom_char code = true
  else String.length code = SHORT_CODE_LENGTH ∧ Str.all in_ALPHABET code = true.

(** The state after [example_request], served at time 5 with the random
    source [λ n, n * 7]. *)
Definition example_world : world :=
  {| disk := {["ahovCJ" := {| url := "http://example.com";
                              created_at := 5; clicks := 0 |}]};
     conn := None; faults := []; entropy := λ n, n * 7; drawn := 6 |}.

(** The character class [[A-Za-z0-9_-]] of the specification. *)
Definition ascii_code_char (c : ascii) : bool :=
  is_ascii_upper c || is_ascii_lower c || is_ascii_digit c
  || Ascii.eqb c "-" || Ascii.eqb c "_".

(** The character set of custom codes as the specification words it: a
    non-empty custom code that [shorten] accepts consists of characters
    of [[A-Za-z0-9_-]]. *)
Definition custom_codes_are_ascii : Prop :=
  ∀ (fuel : nat) (now : Z) (req : request) (w : world) (b : body) (w1 : world)
    (custom : string),
    payload_custom req = Some custom →
    custom ≠ "" →
    handle fuel (POST_shorten now req) w = Some (Ok (b, 201%Z), w1) →
    Str.all ascii_code_char custom = true.

(** The answers to a sequence of requests (from first to last) and the
    state after them, if all of them finish. *)
Fixpoint serve_all (fuel : nat) (cs : list call) (w : world)
  : option (list (result response) * world) :=
  match cs with
  | [] => Some ([], w)
  | c :: cs =>
      match handle fuel c w with
      | Some (out, w') =>
          match serve_all fuel cs w' with
          | Some (outs, w'') => Some (out :: outs, w'')
          | None => None
          end
      | None => None
      end
  end.

(** The request was [GET /<code>] and got as far as [flask.redirect]:
    it was answered with the 302 redirect, or [ValueError] was raised for
    the stored URL. *)
Definition redirected (code : string) (c : call) (out : result response) : bool :=
  match c, out with
  | GET_code code', Ok (Location _, 302%Z) => String.eqb code' code
  | GET_code code', Err ValueError => String.eqb code' code
  | _, _ => false
  end.

(** How many of the requests [cs], answered by [outs], were redirects of
    [code]. *)
Fixpoint redirects (code : string) (cs : list call) (outs : list (result response)) : nat :=
  match cs, outs with
  | c :: cs, out :: outs =>
      (if redirected code c out then 1 else 0) + redirects code cs outs
  | _, _ => 0
  end.

(** A character of a plain host name: an ASCII letter or digit, "." or
    "-". *)
Definition host_char (c : ascii) : bool :=
  is_ascii_lower c || is_ascii_upper c || is_ascii_digit c
  || Ascii.eqb c "." || Ascii.eqb c "-".



(** The URL invariant as the specification words it: every stored URL has
    the scheme http or https and a non-empty host ([ParseResult.hostname]). *)
Definition stored_urls_have_host : Prop :=
  ∀ (w : world) (code : string) (row : UrlRecord),
    reachable w →
    disk w !! code = Some row →
    ∃ parsed h, urlparse (url row) = Ok parsed
                ∧ (scheme parsed = "http" ∨ scheme parsed = "https")
                ∧ hostname parsed = Some h.



(** * Properties *)

(** ** Stepping through a computation *)

Lemma bind_unfold {A B} (m : M A) (f : A → M B) (w : world) :
  (m ≫= f) w = match m w with
               | Some (Ok a, w') => f a w'
               | Some (Err e, w') => Some (Err e, w')
               | None => None
               end.
Proof. reflexivity. Qed.

Lemma get_db_unfold (w : world) :
  get_db w = Some (Ok (), set_conn (Some (table w)) w).
Proof. destruct w as [d [t|] f e n]; reflexivity. Qed.

Lemma statement_unfold (w : world) :
  statement w =
  Some (if hd false (faults w) then Err OperationalError else Ok (),
        set_faults (tail (faults w)) w).
Proof. destruct w as [d c [|[] f] e n]; reflexivity. Qed.

Lemma available_S (n : nat) (fs : list bool) :
  available (S n) fs = true → hd false fs = false ∧ available n (tail fs) = true.
Proof.
  destruct fs as [|[] fs]; simpl; intros H; try discriminate; split; trivial.
  unfold available. now rewrite take_nil.
Qed.

Lemma quiet_available (n : nat) (fs : list bool) :
  quiet fs = true → available n fs = true.
Proof.
  unfold quiet, available. revert n.
  induction fs as [|b fs IH]; intros [|n] H; simpl in *; trivial.
  apply andb_true_iff in H as [-> H]. simpl. auto.
Qed.

Lemma quiet_tail (fs : list bool) : quiet fs = true → quiet (tail fs) = true.
Proof. destruct fs as [|b fs]; simpl; trivial. intros H. apply andb_true_iff in H. tauto. Qed.

Lemma quiet_drop (k : nat) (fs : list bool) : quiet fs = true → quiet (drop k fs) = true.
Proof.
  revert fs. induction k as [|k IH]; intros [|b fs] H; simpl; trivial.
  apply IH. simpl in H. apply andb_true_iff in H. tauto.
Qed.

(** Unfolds the primitives of [M] on an environment given by its fields. *)
Ltac unfold_M :=
  unfold execute_select, execute_insert, execute_update_clicks, commit,
    get_db, connection, statement, modify, gets, raise, lift,
    mbind, M_bind, mret, M_ret, close_db, table,
    set_conn, set_disk, set_faults, set_drawn in *;
  simpl in *.

(** ** What the two GET views compute *)

Lemma redirect_code_unfold (fuel : nat) (code : string) (w : world) :
  handle fuel (GET_code code) w =
  let fs := faults w in
  if hd false fs then
    Some (Err OperationalError, between_requests (disk w) (drop 1 fs) w)
  else match disk w !! code with
       | None => Some (Ok (Text "Not found", 404%Z), between_requests (disk w) (drop 1 fs) w)
       | Some row =>
           if hd false (drop 1 fs) then
             Some (Err OperationalError, between_requests (disk w) (drop 2 fs) w)
           else if hd false (drop 2 fs) then
             Some (Err OperationalError, between_requests (disk w) (drop 3 fs) w)
           else
             Some (redirect (url row),
                   between_requests (alter click code (disk w)) (drop 3 fs) w)
       end.
Proof.
  destruct w as [d c fs e n].
  unfold handle, serve, redirect_code; unfold_M.
  destruct fs as [|[] [|[] [|[] fs]]]; simpl;
    destruct (d !! code) as [row|]; reflexivity.
Qed.

Lemma stats_unfold (fuel : nat) (code : string) (w : world) :
  handle fuel (GET_stats code) w =
  let fs := faults w in
  if hd false fs then
    Some (Err OperationalError, between_requests (disk w) (drop 1 fs) w)
  else
    Some (Ok match disk w !! code with
             | None => (jsonify [("error", JString "Not found")], 404%Z)
             | Some row =>
                 (jsonify [("code", JString code);
                           ("url", JString (url row));
                           ("created_at", JDatetime (created_at row));
                           ("clicks", JNumber (clicks row))], 200%Z)
             end,
          between_requests (disk w) (drop 1 fs) w).
Proof.
  destruct w as [d c fs e n].
  unfold handle, serve, stats; unfold_M.
  destruct fs as [|[] fs]; simpl; destruct (d !! code) as [row|]; reflexivity.
Qed.

Lemma hd_quiet (k : nat) (fs : list bool) : quiet fs = true → hd false (drop k fs) = false.
Proof.
  intros H. apply (quiet_drop k) in H.
  destruct (drop k fs) as [|[] l]; simpl in *; congruence.
Qed.

Lemma hd_available (k n : nat) (fs : list bool) :
  available n fs = true → k < n → hd false (drop k fs) = false.
Proof.
  unfold available. revert k fs.
  induction n as [|n IH]; intros k fs H Hk; [lia|].
  destruct fs as [|b fs]; [now rewrite drop_nil|].
  simpl in H. apply andb_true_iff in H as [Hb H].
  destruct k as [|k]; simpl.
  - now destruct b.
  - apply IH; [exact H | lia].
Qed.

Lemma hd_available0 (n : nat) (fs : list bool) :
  available (S n) fs = true → hd false fs = false.
Proof. intros H. now apply (hd_available 0 (S n) fs H); lia. Qed.

(** One redirect of a stored code when SQLite does not fail. *)
Lemma redirect_code_quiet (fuel : nat) (code : string) (row : UrlRecord) (w : world) :
  disk w !! code = Some row →
  available 3 (faults w) = true →
  handle fuel (GET_code code) w =
  Some (redirect (url row),
        between_requests (alter click code (disk w)) (drop 3 (faults w)) w).
Proof.
  intros Hrow Hq. rewrite redirect_code_unfold. cbv zeta. rewrite Hrow.
  rewrite (hd_available0 2) by trivial.
  now rewrite !(hd_available _ 3) by (trivial; lia).
Qed.

Lemma redirects_run (fuel : nat) (code : string) (N : nat) :
  ∀ (w : world) (row : UrlRecord),
    disk w !! code = Some row →
    quiet (faults w) = true →
    ∃ w', run fuel (replicate N (GET_code code)) w = Some w'
          ∧ disk w' !! code =
              Some {| url := url row; created_at := created_at row;
                      clicks := clicks row + Z.of_nat N |}
          ∧ quiet (faults w') = true.
Proof.
  induction N as [|N IH]; intros w row Hrow Hq.
  - exists w. simpl. rewrite Z.add_0_r. now destruct row.
  - simpl. rewrite (redirect_code_quiet fuel code row) by auto using quiet_available.
    destruct (IH (between_requests (alter click code (disk w)) (drop 3 (faults w)) w)
                 (click row)) as (w' & Hrun & Hdisk & Hq').
    + simpl. now rewrite lookup_alter_eq, Hrow.
    + simpl. now apply quiet_drop.
    + exists w'. split; [exact Hrun|]. split; [|exact Hq'].
      rewrite Hdisk. simpl. do 2 f_equal. lia.
Qed.

(** C9: the two views answer an unknown code with 404, [redirect_code] with
    the string body "Not found" and [stats] with the JSON object
    {"error": "Not found"} (as long as the lookup itself succeeds). *)
Theorem not_found_asymmetry (fuel : nat) (code : string) (w : world) :
  disk w !! code = None →
  available 1 (faults w) = true →
  let w' := between_requests (disk w) (drop 1 (faults w)) w in
  handle fuel (GET_code code) w = Some (Ok (Text "Not found", 404%Z), w')
  ∧ handle fuel (GET_stats code) w
    = Some (Ok (jsonify [("error", JString "Not found")], 404%Z), w')
  ∧ Text "Not found" ≠ jsonify [("error", JString "Not found")].
Proof.
  intros Hnone Hq w'.
  rewrite redirect_code_unfold, stats_unfold. cbv zeta. rewrite Hnone.
  rewrite (hd_available0 0) by trivial.
  split; [reflexivity | split; [reflexivity | discriminate]].
Qed.

Lemma not_found_asymmetry_witness :
  let w := fresh [false; true] (λ n, n) in
  let w' := fresh [true] (λ n, n) in
  handle 0 (GET_code "nosuch") w = Some (Ok (Text "Not found", 404%Z), w')
  ∧ handle 0 (GET_stats "nosuch") w
    = Some (Ok (jsonify [("error", JString "Not found")], 404%Z), w')
  ∧ Text "Not found" ≠ jsonify [("error", JString "Not found")].
Proof.
  apply (not_found_asymmetry 0 "nosuch" (fresh [false; true] (λ n, n))); reflexivity.
Defined.

(** ** Redirect and the click counter *)

(** The claim fails for a stored code when the UPDATE fails. *)
Lemma redirect_is_best_effort_counterexample : ¬ redirect_is_best_effort.
Proof.
  intros H.
  destruct (H 0 "abc" example_row
              {| disk := {["abc" := example_row]}; conn := None;
                 faults := [false; true]; entropy := λ n, n; drawn := 0 |})
    as [w' Hw']; try reflexivity.
  rewrite redirect_code_unfold in Hw'. discriminate Hw'.
Qed.

(** C6, amended: when the lookup of a stored code succeeds and the UPDATE
    or the commit fails, [redirect_code] does not answer with the redirect:
    [OperationalError] propagates out of the view, and the record keeps its
    count. *)
Theorem redirect_requires_increment
    (fuel : nat) (code : string) (row : UrlRecord) (w : world) :
  disk w !! code = Some row →
  hd false (faults w) = false →
  hd false (drop 1 (faults w)) = true ∨ hd false (drop 2 (faults w)) = true →
  ∃ w', handle fuel (GET_code code) w = Some (Err OperationalError, w')
        ∧ disk w' = disk w
        ∧ disk w' !! code = Some row.
Proof.
  intros Hrow Hsel Hfail. rewrite redirect_code_unfold. cbv zeta. rewrite Hsel, Hrow.
  destruct Hfail as [Hf|Hf].
  - rewrite Hf. eexists. repeat split. exact Hrow.
  - rewrite Hf. destruct (hd false (drop 1 (faults w))); eexists; repeat split;
      exact Hrow.
Qed.

Lemma redirect_requires_increment_witness :
  let w := {| disk := {["abc" := example_row]}; conn := None;
              faults := [false; true]; entropy := λ n, n; drawn := 0 |} in
  ∃ w', handle 0 (GET_code "abc") w = Some (Err OperationalError, w')
        ∧ disk w' = disk w
        ∧ disk w' !! "abc" = Some example_row.
Proof.
  intros w.
  apply (redirect_requires_increment 0 "abc" example_row w);
    [reflexivity | reflexivity | left; reflexivity].
Defined.

(** [stats] only reads: whatever it answers, the table is as before. *)
Lemma stats_read_only (fuel : nat) (code : string) (w : world) :
  ∃ out, handle fuel (GET_stats code) w
         = Some (out, between_requests (disk w) (drop 1 (faults w)) w).
Proof.
  rewrite stats_unfold. cbv zeta.
  destruct (hd false (faults w)); eexists; reflexivity.
Qed.

Lemma stats_run (fuel : nat) (code : string) (k : nat) :
  ∀ w : world,
    ∃ w', run fuel (replicate k (GET_stats code)) w = Some w'
          ∧ disk w' = disk w ∧ faults w' = drop k (faults w).
Proof.
  induction k as [|k IH]; intros w.
  - exists w. now rewrite drop_0.
  - simpl. destruct (stats_read_only fuel code w) as [out ->].
    destruct (IH (between_requests (disk w) (drop 1 (faults w)) w))
      as (w' & Hrun & Hd & Hf).
    exists w'. split; [exact Hrun|]. split; [exact Hd|].
    rewrite Hf. simpl. rewrite drop_drop. f_equal.
Qed.

(** C4: after [N] redirects of a record that starts with [clicks = 0]
    (and no SQLite failure), [stats] reports [clicks = N], also after any
    number [k] of further [stats] requests; and a [stats] request leaves the
    table unchanged in every state. *)
Theorem click_counting
    (fuel : nat) (code : string) (row : UrlRecord) (N : nat) (w : world) :
  disk w !! code = Some row →
  clicks row = 0%Z →
  quiet (faults w) = true →
  (∃ w1, run fuel (replicate N (GET_code code)) w = Some w1
     ∧ ∀ k : nat, ∃ w2 w3,
         run fuel (replicate k (GET_stats code)) w1 = Some w2
         ∧ handle fuel (GET_stats code) w2
           = Some (Ok (jsonify [("code", JString code);
                                ("url", JString (url row));
                                ("created_at", JDatetime (created_at row));
                                ("clicks", JNumber (Z.of_nat N))], 200%Z), w3))
  ∧ (∀ (code' : string) (w1 : world) out (w2 : world),
       handle fuel (GET_stats code') w1 = Some (out, w2) → disk w2 = disk w1).
Proof.
  intros Hrow Hzero Hq. split.
  - destruct (redirects_run fuel code N w row Hrow Hq) as (w1 & Hrun & Hdisk & Hq1).
    exists w1. split; [exact Hrun|]. intros k.
    destruct (stats_run fuel code k w1) as (w2 & Hrun2 & Hd2 & Hf2).
    exists w2. eexists. split; [exact Hrun2|].
    rewrite stats_unfold. cbv zeta. rewrite Hd2, Hdisk, Hf2.
    rewrite (hd_quiet k) by exact Hq1. simpl. rewrite Hzero. reflexivity.
  - intros code' w1 out w2 H.
    destruct (stats_read_only fuel code' w1) as [out' H'].
    rewrite H' in H. now inversion H.
Qed.

Lemma click_counting_witness :
  let w := {| disk := {["abc" := example_row]}; conn := None;
              faults := []; entropy := λ n, n; drawn := 0 |} in
  (∃ w1, run 0 (replicate 3 (GET_code "abc")) w = Some w1
     ∧ ∀ k : nat, ∃ w2 w3,
         run 0 (replicate k (GET_stats "abc")) w1 = Some w2
         ∧ handle 0 (GET_stats "abc") w2
           = Some (Ok (jsonify [("code", JString "abc");
                                ("url", JString "http://example.com");
                                ("created_at", JDatetime 0);
                                ("clicks", JNumber 3)], 200%Z), w3))
  ∧ (∀ (code' : string) (w1 : world) out (w2 : world),
       handle 0 (GET_stats code') w1 = Some (out, w2) → disk w2 = disk w1).
Proof.
  intros w.
  apply (click_counting 0 "abc" example_row 3 w); reflexivity.
Defined.

(** ** The validator *)

Lemma validate_nonempty (c : ascii) (s : string) :
  validate_and_normalize_url (Some (String c s))
  = validate_stripped (Str.strip (String c s)).
Proof. reflexivity. Qed.

Lemma lstrip_all (p : ascii → bool) (s : string) :
  Str.all p s = true → Str.lstrip p s = "".
Proof.
  induction s as [|c s IH]; simpl; trivial.
  intros H. apply andb_true_iff in H as [-> H]. auto.
Qed.

Lemma strip_whitespace (s : string) : Str.all isspace s = true → Str.strip s = "".
Proof. intros H. unfold Str.strip. now rewrite lstrip_all. Qed.

(** C2: "example.com" is normalised to "http://example.com"; the empty
    string, every string of whitespace only, "ftp://x.com" and "http://"
    (whose authority is empty) are refused. *)
Theorem normalize_boundaries (s : string) :
  Str.all isspace s = true →
  validate_and_normalize_url (Some "example.com") = Ok (Some "http://example.com")
  ∧ validate_and_normalize_url (Some "") = Ok None
  ∧ validate_and_normalize_url (Some s) = Ok None
  ∧ validate_and_normalize_url (Some "ftp://x.com") = Ok None
  ∧ validate_and_normalize_url (Some "http://") = Ok None
  ∧ urlparse "http://"
    = Ok {| scheme := "http"; netloc := ""; path := ""; params := "";
            query := ""; fragment := "" |}.
Proof.
  intros Hs.
  assert (Hws : validate_and_normalize_url (Some s) = Ok None).
  { destruct s as [|c s]; [reflexivity|].
    rewrite validate_nonempty, strip_whitespace by exact Hs.
    vm_compute. reflexivity. }
  split; [vm_compute; reflexivity|].
  split; [reflexivity|].
  split; [exact Hws|].
  repeat split; vm_compute; reflexivity.
Qed.

Lemma normalize_boundaries_witness :
  let s := String (chr 9) (String (chr 32) (String (chr 160) "")) in
  Str.all isspace s = true ∧ validate_and_normalize_url (Some s) = Ok None.
Proof.
  intros s. split; [reflexivity|].
  apply (normalize_boundaries s). reflexivity.
Defined.

Lemma all_lstrip_id (p q : ascii → bool) (s : string) :
  (∀ c, q c = true → p c = false) → Str.all q s = true → Str.lstrip p s = s.
Proof.
  intros Hpq. destruct s as [|c s]; simpl; trivial.
  intros H. apply andb_true_iff in H as [Hc _]. now rewrite (Hpq c Hc).
Qed.

Lemma all_rstrip_id (p q : ascii → bool) (s : string) :
  (∀ c, q c = true → p c = false) → Str.all q s = true → Str.rstrip p s = s.
Proof.
  intros Hpq. induction s as [|c s IH]; simpl; trivial.
  intros H. apply andb_true_iff in H as [Hc Hs].
  rewrite (IH Hs), (Hpq c Hc). now destruct s.
Qed.

Lemma all_remove_id (p q : ascii → bool) (s : string) :
  (∀ c, q c = true → p c = false) → Str.all q s = true → Str.remove p s = s.
Proof.
  intros Hpq. induction s as [|c s IH]; simpl; trivial.
  intros H. apply andb_true_iff in H as [Hc Hs].
  now rewrite (Hpq c Hc), (IH Hs).
Qed.















(** What the validator returns has been parsed with scheme http or https
    and a non-empty authority. *)
Lemma validate_stripped_sound (s u : string) :
  validate_stripped s = Ok (Some u) →
  ∃ parsed, urlparse u = Ok parsed
            ∧ (scheme parsed = "http" ∨ scheme parsed = "https")
            ∧ netloc parsed ≠ "".
Proof.
  unfold validate_stripped.
  assert (Hfin : ∀ (u' : string) (p : ParseResult),
             urlparse u' = Ok p →
             (if negb (bool_decide (scheme p ∈ ["http"; "https"])) then Ok None
              else if String.eqb (netloc p) "" then Ok None
              else Ok (Some u')) = Ok (Some u) →
             ∃ parsed, urlparse u = Ok parsed
                       ∧ (scheme parsed = "http" ∨ scheme parsed = "https")
                       ∧ netloc parsed ≠ "").
  { intros u' p Hp H.
    destruct (bool_decide (scheme p ∈ ["http"; "https"])) eqn:Hsch; simpl in H;
      [|discriminate].
    destruct (String.eqb (netloc p) "") eqn:Hnet; [discriminate|].
    injection H as <-. exists p. split; [exact Hp|]. split.
    - apply bool_decide_eq_true in Hsch.
      apply elem_of_cons in Hsch as [->|Hsch]; [now left|].
      apply elem_of_cons in Hsch as [->|Hsch]; [now right|].
      now apply elem_of_nil in Hsch.
    - now apply String.eqb_neq. }
  destruct (urlparse s) as [p|e] eqn:Hp; cbn [mbind result_bind]; [|discriminate].
  destruct (String.eqb (scheme p) ""); cbn [mbind result_bind].
  - destruct (urlparse ("http://" +:+ s)) as [p'|e] eqn:Hp'; cbn [mbind result_bind];
      [|discriminate].
    apply Hfin. exact Hp'.
  - apply Hfin. exact Hp.
Qed.

Lemma validate_sound (original : option string) (u : string) :
  validate_and_normalize_url original = Ok (Some u) →
  ∃ parsed, urlparse u = Ok parsed
            ∧ (scheme parsed = "http" ∨ scheme parsed = "https")
            ∧ netloc parsed ≠ "".
Proof.
  destruct original as [[|c s]|]; try discriminate.
  rewrite validate_nonempty. apply validate_stripped_sound.
Qed.

(** ** The code generator *)

Lemma get_Some (s : string) :
  ∀ i, i < String.length s → ∃ c, String.get i s = Some c ∧ Str.contains c s = true.
Proof.
  induction s as [|a s IH]; intros i Hi; simpl in Hi; [lia|].
  destruct i as [|i]; simpl.
  - exists a. split; [reflexivity|]. now rewrite Ascii.eqb_refl.
  - destruct (IH i) as (c & Hc & Hin); [lia|].
    exists c. split; [exact Hc|]. rewrite Hin. apply orb_true_r.
Qed.

Lemma ALPHABET_get (i : nat) : i < 62 → String.get i ALPHABET = Some (alphabet_at i).
Proof.
  intros Hi. unfold alphabet_at.
  destruct (get_Some ALPHABET i) as (c & -> & _); [exact Hi|reflexivity].
Qed.

Lemma alphabet_at_in (i : nat) : i < 62 → in_ALPHABET (alphabet_at i) = true.
Proof.
  intros Hi. unfold alphabet_at, in_ALPHABET.
  destruct (get_Some ALPHABET i) as (c & -> & Hc); [exact Hi|exact Hc].
Qed.

Lemma in_ALPHABET_classes (c : ascii) :
  in_ALPHABET c = is_ascii_upper c || is_ascii_lower c || is_ascii_digit c.
Proof. destruct c as [[] [] [] [] [] [] [] []]; reflexivity. Qed.

Lemma choice_ALPHABET (w : world) :
  choice ALPHABET w
  = Some (Ok (alphabet_at (entropy w (drawn w) mod 62)), set_drawn (S (drawn w)) w).
Proof.
  unfold choice. destruct ALPHABET as [|a s] eqn:HA; [discriminate HA|].
  rewrite <- HA. change (String.length ALPHABET) with 62.
  rewrite bind_unfold. unfold randbelow.
  rewrite ALPHABET_get by (apply Nat.mod_upper_bound; lia).
  reflexivity.
Qed.

Lemma join_choices_unfold (length : nat) :
  ∀ w : world,
    join_choices length w
    = Some (Ok (draw (entropy w) (drawn w) length), set_drawn (drawn w + length) w).
Proof.
  induction length as [|n IH]; intros w.
  - simpl. unfold mret, M_ret, set_drawn. rewrite Nat.add_0_r. now destruct w.
  - cbn [join_choices draw]. rewrite bind_unfold, choice_ALPHABET.
    rewrite bind_unfold, IH. unfold mret, M_ret, set_drawn. simpl.
    do 3 f_equal. lia.
Qed.

Lemma generate_code_step (fuel length : nat) (w : world) :
  generate_code (S fuel) length w =
  if hd false (faults w) then Some (Err OperationalError, after_attempts w length 1)
  else match table w !! candidate w length 0 with
       | None => Some (Ok (candidate w length 0), after_attempts w length 1)
       | Some _ => generate_code fuel length (after_attempts w length 1)
       end.
Proof.
  cbn [generate_code]. rewrite bind_unfold, join_choices_unfold.
  unfold candidate, after_attempts. rewrite Nat.add_0_r, Nat.mul_1_l.
  destruct w as [d c fs e n].
  rewrite bind_unfold, get_db_unfold. unfold execute_select.
  rewrite !bind_unfold. unfold connection.
  unfold table, set_drawn, set_conn; cbn [conn disk faults entropy drawn].
  rewrite !bind_unfold, statement_unfold.
  unfold set_faults; cbn [conn disk faults entropy drawn].
  assert (Hd : tail fs = drop 1 fs) by now destruct fs.
  rewrite Hd.
  destruct (hd false fs); [now destruct c|].
  unfold mret, M_ret.
  destruct c as [t|];
    match goal with |- context [?m !! ?k] => destruct (m !! k) end; reflexivity.
Qed.

Lemma candidate_after (w : world) (length j k : nat) :
  candidate (after_attempts w length j) length k = candidate w length (j + k).
Proof. unfold candidate, after_attempts. simpl. f_equal. lia. Qed.

Lemma table_after (w : world) (length j : nat) :
  table (after_attempts w length j) = table w.
Proof. reflexivity. Qed.

Lemma after_after (w : world) (length j k : nat) :
  after_attempts (after_attempts w length j) length k = after_attempts w length (j + k).
Proof.
  unfold after_attempts. simpl. rewrite drop_drop. f_equal. lia.
Qed.

Lemma draw_length (e : nat → nat) (length : nat) :
  ∀ pos, String.length (draw e pos length) = length.
Proof. induction length as [|n IH]; intros pos; simpl; auto. Qed.

Lemma draw_in_ALPHABET (e : nat → nat) (length : nat) :
  ∀ pos, Str.all in_ALPHABET (draw e pos length) = true.
Proof.
  induction length as [|n IH]; intros pos; cbn [draw Str.all]; trivial.
  rewrite alphabet_at_in by (apply Nat.mod_upper_bound; lia). apply IH.
Qed.

(** Whatever the loop returns is a candidate that the table does not
    hold, found after the earlier candidates were all taken. *)
Lemma generate_code_returns (length fuel : nat) :
  ∀ (w : world) (code : string) (w' : world),
    generate_code fuel length w = Some (Ok code, w') →
    ∃ k, k < fuel
         ∧ code = candidate w length k
         ∧ (∀ j, j < k → is_Some (table w !! candidate w length j))
         ∧ table w !! code = None
         ∧ w' = after_attempts w length (S k).
Proof.
  induction fuel as [|fuel IH]; intros w code w' H; [discriminate|].
  rewrite generate_code_step in H.
  destruct (hd false (faults w)); [discriminate|].
  destruct (table w !! candidate w length 0) as [row|] eqn:Hcur.
  - apply IH in H as (k & Hk & -> & Hbefore & Hfree & ->).
    exists (S k). rewrite candidate_after, table_after in *.
    rewrite after_after. repeat split; trivial; [lia|].
    intros [|j] Hj.
    + now rewrite Hcur.
    + specialize (Hbefore j). rewrite candidate_after in Hbefore.
      apply Hbefore. lia.
  - injection H as <- <-. exists 0. repeat split; trivial; [lia|].
    intros j Hj. lia.
Qed.

(** The loop has no bound of its own: if the first [k] candidates are
    taken and the next one is free, [k + 1] iterations find it. *)
Lemma generate_code_finds (length k : nat) :
  ∀ (w : world) (fuel : nat),
    (∀ j, j < k → is_Some (table w !! candidate w length j)) →
    table w !! candidate w length k = None →
    available (S k) (faults w) = true →
    k < fuel →
    generate_code fuel length w
    = Some (Ok (candidate w length k), after_attempts w length (S k)).
Proof.
  induction k as [|k IH]; intros w fuel Hbefore Hfree Hav Hfuel;
    (destruct fuel as [|fuel]; [lia|]);
    rewrite generate_code_step, (hd_available0 _ _ Hav).
  - now rewrite Hfree.
  - destruct (Hbefore 0) as [row ->]; [lia|].
    rewrite (IH (after_attempts w length 1) fuel).
    + now rewrite candidate_after, after_after.
    + intros j Hj. rewrite candidate_after, table_after. apply Hbefore. lia.
    + now rewrite candidate_after, table_after.
    + apply available_S in Hav as [_ Hav].
      unfold after_attempts; cbn [faults]. now destruct (faults w).
    + lia.
Qed.

Lemma generate_code_world (length fuel : nat) :
  ∀ (w : world) out (w' : world),
    generate_code fuel length w = Some (out, w') →
    ∃ k, w' = after_attempts w length k.
Proof.
  induction fuel as [|fuel IH]; intros w out w' H; [discriminate|].
  rewrite generate_code_step in H.
  destruct (hd false (faults w)); [injection H as <- <-; now exists 1|].
  destruct (table w !! candidate w length 0) as [row|].
  - apply IH in H as [k ->]. exists (1 + k). apply after_after.
  - injection H as <- <-. now exists 1.
Qed.

(** ** The shorten view *)

Lemma persist_cases (now : Z) (req : request) (u code : string)
    (w : world) (t : gmap string UrlRecord) :
  conn w = Some t →
  t !! code = None →
  ∃ out w', persist now req u code w = Some (out, w')
    ∧ entropy w' = entropy w
    ∧ ((out = Err OperationalError ∧ disk w' = disk w)
       ∨ (out = created now req code
          ∧ disk w' = <[code := {| url := u; created_at := now; clicks := 0 |}]> t)).
Proof.
  intros Hconn Hfree. destruct w as [d c fs e n]. simpl in Hconn. subst c.
  unfold persist, created; unfold_M. rewrite Hfree.
  destruct fs as [|[] [|[] fs]]; simpl; eexists _, _;
    (split; [reflexivity|]); simpl; auto.
Qed.

Lemma execute_select_unfold (code : string) (w : world) (t : gmap string UrlRecord) :
  conn w = Some t →
  execute_select code w
  = Some (if hd false (faults w) then Err OperationalError else Ok (t !! code),
          set_faults (tail (faults w)) w).
Proof.
  intros Hconn. destruct w as [d c fs e n]. simpl in Hconn. subst c.
  unfold_M. now destruct fs as [|[] fs].
Qed.

(** What a [POST /shorten] request can do to the table: nothing, unless it
    answers 201; then it has added one row under a code that was free,
    holding the validated URL, the time of the request and no clicks. *)
Lemma shorten_cases (fuel : nat) (now : Z) (req : request) (w : world)
    out (w' : world) :
  handle fuel (POST_shorten now req) w = Some (out, w') →
  entropy w' = entropy w
  ∧ ((disk w' = disk w ∧ ¬ is_created out)
     ∨ ∃ u code,
         validate_and_normalize_url (payload_url req) = Ok (Some u)
         ∧ disk w !! code = None
         ∧ disk w' = <[code := {| url := u; created_at := now; clicks := 0 |}]> (disk w)
         ∧ out = created now req code
         ∧ if truthy (payload_custom req)
           then payload_custom req = Some code ∧ Str.all custom_char code = true
           else String.length code = SHORT_CODE_LENGTH
                ∧ Str.all in_ALPHABET code = true).
Proof.
  unfold handle, serve, is_created. intros H.
  destruct (shorten fuel now req (set_conn None w)) as [[r w1]|] eqn:Hs; [|discriminate].
  injection H as <- <-.
  unfold shorten in Hs. rewrite bind_unfold in Hs. unfold lift in Hs.
  destruct (validate_and_normalize_url (payload_url req)) as [[u|]|e] eqn:Hv.
  2,3: injection Hs as <- <-; split; [reflexivity|left];
       (split; [reflexivity | intros [b Hb]; discriminate]).
  destruct u as [|c0 u].
  { injection Hs as <- <-. split; [reflexivity|left].
    split; [reflexivity | intros [b Hb]; discriminate]. }
  cbn [truthy negb default] in Hs.
  rewrite bind_unfold, get_db_unfold in Hs.
  set (w0 := set_conn (Some (table (set_conn None w))) (set_conn None w)) in Hs.
  assert (Hconn0 : conn w0 = Some (disk w)) by reflexivity.
  change (shorten_tail fuel now req (String c0 u) w0 = Some (r, w1)) in Hs.
  unfold shorten_tail in Hs.
  destruct (truthy (payload_custom req)) eqn:Hcustom.
  - destruct (payload_custom req) as [custom|]; [|discriminate].
    cbn [from_option] in Hs; unfold id in Hs.
    destruct (Str.all custom_char custom) eqn:Hall; cbn [negb] in Hs.
    2: { injection Hs as <- <-. split; [reflexivity|left].
         split; [reflexivity | intros [b Hb]; discriminate]. }
    rewrite bind_unfold, (execute_select_unfold _ _ _ Hconn0) in Hs.
    destruct (hd false (faults w0)).
    { injection Hs as <- <-. split; [reflexivity|left].
      split; [reflexivity | intros [b Hb]; discriminate]. }
    destruct (disk w !! custom) as [row|] eqn:Hcur.
    { injection Hs as <- <-. split; [reflexivity|left].
      split; [reflexivity | intros [b Hb]; discriminate]. }
    destruct (persist_cases now req (String c0 u) custom
                (set_faults (tail (faults w0)) w0) (disk w) eq_refl Hcur)
      as (out & w2 & Hp & He & Hcases).
    fold (persist now req (String c0 u) custom) in Hs.
    rewrite Hp in Hs. injection Hs as <- <-.
    split; [exact He|].
    destruct Hcases as [[-> Hd]|[-> Hd]].
    + left. split; [exact Hd | intros [b Hb]; discriminate].
    + right. exists (String c0 u), custom. repeat split; try exact Hd; trivial.
  - rewrite bind_unfold in Hs.
    destruct (generate_code fuel SHORT_CODE_LENGTH w0) as [[[code|e] w2]|] eqn:Hg;
      [| |discriminate].
    2: { injection Hs as <- <-.
         apply generate_code_world in Hg as [k ->].
         split; [reflexivity|left].
         split; [reflexivity | intros [b Hb]; discriminate]. }
    apply generate_code_returns in Hg as (k & Hk & -> & _ & Hfree & ->).
    destruct (persist_cases now req (String c0 u) (candidate w0 SHORT_CODE_LENGTH k)
                (after_attempts w0 SHORT_CODE_LENGTH (S k)) (disk w) eq_refl Hfree)
      as (out & w2 & Hp & He & Hcases).
    fold (persist now req (String c0 u) (candidate w0 SHORT_CODE_LENGTH k)) in Hs.
    rewrite Hp in Hs. injection Hs as <- <-.
    split; [exact He|].
    destruct Hcases as [[-> Hd]|[-> Hd]].
    + left. split; [exact Hd | intros [b Hb]; discriminate].
    + right. exists (String c0 u), (candidate w0 SHORT_CODE_LENGTH k).
      repeat split; try exact Hd; try apply draw_length;
        try apply draw_in_ALPHABET; trivial.
Qed.

(** C5: a code returned by [generate_code(length)] has [length]
    characters, all from the 62 symbols A-Z, a-z, 0-9, and is not in the
    table at that moment; it is the first free candidate, found after the
    taken ones before it.  The loop has no retry bound: whatever the number
    [k] of taken candidates before a free one, [k + 1] iterations return
    the free one.  [shorten] asks for [SHORT_CODE_LENGTH = 6] characters. *)
Theorem generate_code_postcondition
    (fuel length : nat) (w : world) (code : string) (w' : world) :
  generate_code fuel length w = Some (Ok code, w') →
  String.length code = length
  ∧ Str.all (λ c, is_ascii_upper c || is_ascii_lower c || is_ascii_digit c) code = true
  ∧ table w' !! code = None
  ∧ (∃ k, k < fuel ∧ code = candidate w length k
          ∧ ∀ j, j < k → is_Some (table w !! candidate w length j))
  ∧ String.length ALPHABET = 62
  ∧ SHORT_CODE_LENGTH = 6
  ∧ (∀ (k fuel' : nat) (v : world),
       (∀ j, j < k → is_Some (table v !! candidate v length j)) →
       table v !! candidate v length k = None →
       available (S k) (faults v) = true →
       k < fuel' →
       generate_code fuel' length v
       = Some (Ok (candidate v length k), after_attempts v length (S k))).
Proof.
  intros H.
  apply generate_code_returns in H as (k & Hk & -> & Hbefore & Hfree & ->).
  split; [apply draw_length|].
  split.
  { unfold candidate.
    generalize (draw_in_ALPHABET (entropy w) length (drawn w + k * length)).
    generalize (draw (entropy w) (drawn w + k * length) length) as s.
    induction s as [|c s IH]; cbn [Str.all]; trivial.
    rewrite in_ALPHABET_classes. intros Hs.
    apply andb_true_iff in Hs as [-> Hs]. now apply IH. }
  split; [exact Hfree|].
  split; [now exists k|].
  split; [reflexivity|].
  split; [reflexivity|].
  intros k' fuel' v. apply generate_code_finds.
Qed.

Lemma generate_code_postcondition_witness :
  let w := {| disk := {["ahovCJ" := example_row]}; conn := None;
              faults := []; entropy := λ n, n * 7; drawn := 0 |} in
  generate_code 2 6 w = Some (Ok "QX4bip", after_attempts w 6 2)
  ∧ String.length "QX4bip" = 6
  ∧ table (after_attempts w 6 2) !! "QX4bip" = None.
Proof.
  intros w.
  assert (H : generate_code 2 6 w = Some (Ok "QX4bip", after_attempts w 6 2))
    by (vm_compute; reflexivity).
  split; [exact H|].
  destruct (generate_code_postcondition 2 6 w "QX4bip" _ H) as (Hlen & _ & Hfree & _).
  split; [exact Hlen | exact Hfree].
Defined.

(** ** Round trip *)



Lemma all_not_contains (p : ascii → bool) (c : ascii) (s : string) :
  p c = false → Str.all p s = true → Str.contains c s = false.
Proof.
  intros Hc. induction s as [|x s IH]; simpl; trivial.
  intros H. apply andb_true_iff in H as [Hx Hs].
  rewrite IH by exact Hs.
  destruct (Ascii.eqb_spec x c) as [->|_]; [congruence | reflexivity].
Qed.







(** ** Reachable states and what a request does to the table *)

Lemma handle_cases (fuel : nat) (c : call) (w : world) out (w' : world) :
  handle fuel c w = Some (out, w') →
  disk w' = disk w
  ∨ (∃ code row, c = GET_code code ∧ disk w !! code = Some row
                 ∧ disk w' = alter click code (disk w))
  ∨ (∃ now req u code,
       c = POST_shorten now req
       ∧ validate_and_normalize_url (payload_url req) = Ok (Some u)
       ∧ code_origin req code
       ∧ disk w !! code = None
       ∧ disk w' = <[code := {| url := u; created_at := now; clicks := 0 |}]> (disk w)).
Proof.
  destruct c as [now req|code|code]; intros H.
  - apply shorten_cases in H as [_ [[Hd _]|(u & code & Hv & Hfree & Hd & _ & Hcode)]].
    + now left.
    + right; right. exists now, req, u, code. auto.
  - rewrite redirect_code_unfold in H. cbv zeta in H.
    destruct (hd false (faults w)); [injection H as <- <-; now left|].
    destruct (disk w !! code) as [row|] eqn:Hrow; [|injection H as <- <-; now left].
    destruct (hd false (drop 1 (faults w))); [injection H as <- <-; now left|].
    destruct (hd false (drop 2 (faults w))); [injection H as <- <-; now left|].
    injection H as <- <-. right; left. now exists code, row.
  - destruct (stats_read_only fuel code w) as [out' H'].
    rewrite H' in H. injection H as <- <-. now left.
Qed.

(** A property of rows that holds for every created row and survives a
    click holds for all rows of a reachable state. *)
Lemma reachable_rows (P : string → UrlRecord → Prop) :
  (∀ code row, P code row → P code (click row)) →
  (∀ now req u code,
     validate_and_normalize_url (payload_url req) = Ok (Some u) →
     code_origin req code →
     P code {| url := u; created_at := now; clicks := 0 |}) →
  ∀ w, reachable w →
       ∀ code row, disk w !! code = Some row → P code row.
Proof.
  intros Hclick Hnew w Hw.
  induction Hw as [fs e|fuel c w out w' Hw IH Hstep]; intros code row Hrow.
  - simpl in Hrow. now rewrite lookup_empty in Hrow.
  - apply handle_cases in Hstep
      as [Hd|[(code' & row' & _ & Hrow' & Hd)
             |(now & req & u & code' & _ & Hv & Hcode & Hfree & Hd)]];
      rewrite Hd in Hrow.
    + now apply IH.
    + destruct (decide (code' = code)) as [->|Hne].
      * rewrite lookup_alter_eq, Hrow' in Hrow. injection Hrow as <-.
        apply Hclick. now apply IH.
      * rewrite lookup_alter_ne in Hrow by exact Hne. now apply IH.
    + destruct (decide (code' = code)) as [->|Hne].
      * rewrite lookup_insert_eq in Hrow. injection Hrow as <-.
        apply (Hnew now req); assumption.
      * rewrite lookup_insert_ne in Hrow by exact Hne. now apply IH.
Qed.

(** The input ":80" is accepted and stored as "http://:80", whose host is
    empty ([hostname] is [None]). *)
Lemma stored_urls_have_host_counterexample : ¬ stored_urls_have_host.
Proof.
  intros H.
  pose (req := {| host_url := "http://localhost:5000/";
                  payload_url := Some ":80";
                  payload_custom := Some "p" |}).
  pose (row := {| url := "http://:80"; created_at := 5; clicks := 0 |}).
  pose (w1 := {| disk := {["p" := row]}; conn := None; faults := [];
                 entropy := λ n, n; drawn := 0 |}).
  assert (Hw1 : reachable w1).
  { apply (reachable_step 0 (POST_shorten 5 req) (fresh [] (λ n, n))
             (Ok (jsonify [("short_url", JString "http://localhost:5000/p")], 201%Z))).
    - apply reachable_fresh.
    - vm_compute. reflexivity. }
  destruct (H w1 "p" row Hw1 eq_refl) as (parsed & h & Hp & _ & Hh).
  vm_compute in Hp. injection Hp as <-. vm_compute in Hh. discriminate Hh.
Qed.

(** C7, amended: in every state reachable from the empty table, the URL of
    every row is a string that [validate_and_normalize_url] returned, and
    [urlparse] gives it the scheme http or https and a non-empty authority
    ([netloc], the component the validator tests; the host within it may
    be empty). *)
Theorem stored_urls_valid (w : world) (code : string) (row : UrlRecord) :
  reachable w →
  disk w !! code = Some row →
  (∃ original, validate_and_normalize_url original = Ok (Some (url row)))
  ∧ ∃ parsed, urlparse (url row) = Ok parsed
              ∧ (scheme parsed = "http" ∨ scheme parsed = "https")
              ∧ netloc parsed ≠ "".
Proof.
  intros Hw Hrow.
  assert (H : ∃ original, validate_and_normalize_url original = Ok (Some (url row))).
  { revert w Hw code row Hrow.
    apply (reachable_rows
             (λ _ row, ∃ original,
                validate_and_normalize_url original = Ok (Some (url row)))).
    - intros code row H. exact H.
    - intros now req u code Hv _. now exists (payload_url req). }
  split; [exact H|].
  destruct H as [original H]. exact (validate_sound original (url row) H).
Qed.

Lemma example_world_reachable : reachable example_world.
Proof.
  apply (reachable_step 1 (POST_shorten 5 example_request) (fresh [] (λ n, n * 7))
           (Ok (jsonify [("short_url", JString "http://localhost:5000/ahovCJ")], 201%Z))).
  - apply reachable_fresh.
  - vm_compute. reflexivity.
Defined.

Lemma stored_urls_valid_witness :
  ∃ parsed, urlparse "http://example.com" = Ok parsed
            ∧ (scheme parsed = "http" ∨ scheme parsed = "https")
            ∧ netloc parsed ≠ "".
Proof.
  apply (stored_urls_valid example_world "ahovCJ"
           {| url := "http://example.com"; created_at := 5; clicks := 0 |}).
  - exact example_world_reachable.
  - reflexivity.
Defined.

(** C8: a row starts with [clicks = 0] and no request makes the count
    smaller: in a reachable state all counts are at least 0; a request
    keeps every row with its URL and creation time and a count that is
    the same or, for a redirect of its code, one more; a row it adds has
    count 0; and [stats] leaves the table as it is. *)
Theorem clicks_monotone
    (w : world) (fuel : nat) (c : call) (out : result response) (w' : world) :
  reachable w →
  handle fuel c w = Some (out, w') →
  (∀ code row, disk w !! code = Some row → (0 ≤ clicks row)%Z)
  ∧ (∀ code row, disk w' !! code = Some row → (0 ≤ clicks row)%Z)
  ∧ (∀ code row, disk w !! code = Some row →
       ∃ row', disk w' !! code = Some row'
               ∧ url row' = url row ∧ created_at row' = created_at row
               ∧ (clicks row' = clicks row
                  ∨ (c = GET_code code ∧ clicks row' = clicks row + 1)%Z))
  ∧ (∀ code row', disk w !! code = None → disk w' !! code = Some row' →
       clicks row' = 0%Z ∧ ∃ now req, c = POST_shorten now req)
  ∧ (∀ code, c = GET_stats code → disk w' = disk w).
Proof.
  intros Hw Hstep.
  assert (Hnonneg : ∀ v, reachable v →
            ∀ code row, disk v !! code = Some row → (0 ≤ clicks row)%Z).
  { apply (reachable_rows (λ _ row, (0 ≤ clicks row)%Z)).
    - intros code row H. simpl. lia.
    - intros now req u code _ _. simpl. lia. }
  split; [exact (Hnonneg w Hw)|].
  split; [exact (Hnonneg w' (reachable_step fuel c w out w' Hw Hstep))|].
  pose proof (handle_cases fuel c w out w' Hstep)
    as [Hd|[(code' & row0 & Hc & Hrow0 & Hd)
           |(now & req & u & code' & Hc & Hv & Hcode & Hfree & Hd)]].
  - split; [|split].
    + intros code row Hrow. exists row. rewrite Hd. auto.
    + intros code row' Hnone Hsome. rewrite Hd in Hsome. congruence.
    + auto.
  - split; [|split].
    + intros code row Hrow. destruct (decide (code' = code)) as [->|Hne].
      * exists (click row). rewrite Hd, lookup_alter_eq, Hrow. simpl.
        repeat split; trivial. right. split; [exact Hc | reflexivity].
      * exists row. rewrite Hd, lookup_alter_ne by exact Hne. auto.
    + intros code row' Hnone Hsome. rewrite Hd in Hsome.
      destruct (decide (code' = code)) as [->|Hne].
      * rewrite lookup_alter_eq, Hnone in Hsome. discriminate.
      * rewrite lookup_alter_ne in Hsome by exact Hne. congruence.
    + intros code ->. discriminate.
  - split; [|split].
    + intros code row Hrow. exists row.
      rewrite Hd, lookup_insert_ne by congruence. auto.
    + intros code row' Hnone Hsome. rewrite Hd in Hsome.
      destruct (decide (code' = code)) as [->|Hne].
      * rewrite lookup_insert_eq in Hsome. injection Hsome as <-. eauto.
      * rewrite lookup_insert_ne in Hsome by exact Hne. congruence.
    + intros code ->. discriminate.
Qed.

Lemma clicks_monotone_witness :
  ∃ row', alter click "ahovCJ" (disk example_world) !! "ahovCJ" = Some row'
          ∧ (clicks row' = 0 ∨ clicks row' = 0 + 1)%Z.
Proof.
  destruct (clicks_monotone example_world 0 (GET_code "ahovCJ")
              (redirect "http://example.com")
              (between_requests (alter click "ahovCJ" (disk example_world)) [] example_world)
              example_world_reachable eq_refl)
    as (_ & _ & H & _).
  destruct (H "ahovCJ" {| url := "http://example.com"; created_at := 5; clicks := 0 |}
              eq_refl) as (row' & Hrow' & _ & _ & Hc).
  exists row'. split; [exact Hrow'|].
  destruct Hc as [Hc|[_ Hc]]; [left | right]; exact Hc.
Defined.

(** ** Custom codes *)

(** The custom code "é" (U+00E9) is accepted: [str.isalnum] holds for it. *)
Lemma custom_codes_are_ascii_counterexample : ¬ custom_codes_are_ascii.
Proof.
  intros H.
  pose (custom := String (chr 233) "").
  pose (req := {| host_url := "http://localhost:5000/";
                  payload_url := Some "example.com";
                  payload_custom := Some custom |}).
  assert (Hc : Str.all ascii_code_char custom = true).
  { apply (H 1 5%Z req (fresh [] (λ n, n))
             (jsonify [("short_url", JString ("http://localhost:5000/" +:+ custom))])
             {| disk := {[custom := {| url := "http://example.com";
                                       created_at := 5; clicks := 0 |}]};
                conn := None; faults := []; entropy := λ n, n; drawn := 0 |}
             custom eq_refl).
    - discriminate.
    - vm_compute. reflexivity. }
  vm_compute in Hc. discriminate Hc.
Qed.

Lemma custom_char_ascii (c : ascii) :
  isascii c = true → custom_char c = ascii_code_char c.
Proof.
  destruct c as [[] [] [] [] [] [] [] []]; vm_compute; intros H; congruence.
Qed.

Lemma ascii_code_char_custom (c : ascii) :
  ascii_code_char c = true → custom_char c = true.
Proof.
  destruct c as [[] [] [] [] [] [] [] []]; vm_compute; intros H; congruence.
Qed.

Lemma in_ALPHABET_custom (c : ascii) : in_ALPHABET c = true → custom_char c = true.
Proof.
  destruct c as [[] [] [] [] [] [] [] []]; vm_compute; intros H; congruence.
Qed.

Lemma all_impl (p q : ascii → bool) (s : string) :
  (∀ c, p c = true → q c = true) → Str.all p s = true → Str.all q s = true.
Proof.
  intros Hpq. induction s as [|c s IH]; simpl; trivial.
  intros H. apply andb_true_iff in H as [Hc Hs].
  now rewrite (Hpq c Hc), IH.
Qed.

Lemma validate_nonempty_result (original : option string) (u : string) :
  validate_and_normalize_url original = Ok (Some u) → u ≠ "".
Proof.
  intros H ->. apply validate_sound in H as (parsed & Hp & _ & Hnet).
  vm_compute in Hp. injection Hp as <-. now apply Hnet.
Qed.

(** With a valid URL, a custom code that has a character outside the
    class is answered with 400 before any statement is sent. *)
Lemma shorten_invalid_chars (fuel : nat) (now : Z) (req : request) (w : world)
    (u custom : string) :
  validate_and_normalize_url (payload_url req) = Ok (Some u) →
  payload_custom req = Some custom →
  custom ≠ "" →
  Str.all custom_char custom = false →
  handle fuel (POST_shorten now req) w
  = Some (Ok (jsonify [("error", JString "Invalid characters in custom code")], 400%Z),
          between_requests (disk w) (faults w) w).
Proof.
  intros Hv Hc Hne Hall.
  pose proof (validate_nonempty_result _ _ Hv) as Hu.
  unfold handle, serve, shorten. rewrite bind_unfold. unfold lift. rewrite Hv.
  destruct u as [|c0 u]; [congruence|].
  cbn [truthy negb]. rewrite bind_unfold, get_db_unfold.
  rewrite Hc. destruct custom as [|c1 custom]; [congruence|].
  cbn [truthy from_option]. unfold id. rewrite Hall. reflexivity.
Qed.

(** C3, amended: a non-empty custom code that [shorten] accepts consists
    of characters for which [str.isalnum] holds, "-" and "_"; a custom code
    with any other character is rejected (never 201, the table unchanged,
    and 400 "Invalid characters in custom code" when the URL is valid).
    On ASCII characters the accepted class is exactly [[A-Za-z0-9_-]], so
    the space is refused; beyond ASCII it holds letters and digits such as
    U+00E9.  Every code in a reachable table is non-empty and made of
    accepted characters. *)
Theorem custom_code_charset
    (fuel : nat) (now : Z) (req : request) (w : world) (custom : string)
    (out : result response) (w1 : world) :
  payload_custom req = Some custom →
  custom ≠ "" →
  handle fuel (POST_shorten now req) w = Some (out, w1) →
  (is_created out →
   Str.all (λ c, isalnum c || bool_decide (c ∈ ["-"; "_"]%char)) custom = true
   ∧ is_Some (disk w1 !! custom))
  ∧ (Str.all custom_char custom = false →
     ¬ is_created out ∧ disk w1 = disk w
     ∧ ∀ u, validate_and_normalize_url (payload_url req) = Ok (Some u) →
            out = Ok (jsonify [("error", JString "Invalid characters in custom code")],
                      400%Z))
  ∧ (∀ c, isascii c = true → custom_char c = ascii_code_char c)
  ∧ custom_char " " = false
  ∧ custom_char (chr 233) = true
  ∧ (∀ v code row, reachable v → disk v !! code = Some row →
       code ≠ "" ∧ Str.all custom_char code = true).
Proof.
  intros Hc Hne Hs.
  assert (Htruthy : truthy (payload_custom req) = true).
  { rewrite Hc. now destruct custom. }
  pose proof (shorten_cases fuel now req w out w1 Hs) as [_ Hcases].
  rewrite Htruthy, Hc in Hcases.
  split; [|split; [|split; [|split; [|split]]]].
  - intros Hcreated.
    destruct Hcases as [[_ Hno]|(u & code & _ & _ & Hd & _ & Heq & Hall)]; [tauto|].
    injection Heq as <-. split; [exact Hall|].
    rewrite Hd, lookup_insert_eq. eauto.
  - intros Hall.
    destruct Hcases as [[Hd Hno]|(u & code & _ & _ & _ & _ & Heq & Hall')].
    + split; [exact Hno|]. split; [exact Hd|].
      intros u Hv.
      rewrite (shorten_invalid_chars fuel now req w u custom Hv Hc Hne Hall) in Hs.
      now injection Hs as <- _.
    + injection Heq as <-. congruence.
  - exact custom_char_ascii.
  - reflexivity.
  - reflexivity.
  - intros v code row Hv.
    revert code row.
    apply (reachable_rows (λ code _, code ≠ "" ∧ Str.all custom_char code = true));
      [tauto | | exact Hv].
    intros now' req' u code _. unfold code_origin.
    destruct (truthy (payload_custom req')) eqn:Ht.
    + intros [Heq Hall]. rewrite Heq in Ht. split; [|exact Hall].
      intros ->. discriminate Ht.
    + intros [Hlen Hall]. split.
      * intros ->. discriminate Hlen.
      * exact (all_impl _ _ _ in_ALPHABET_custom Hall).
Qed.

Lemma custom_code_charset_witness :
  let req := {| host_url := "http://localhost:5000/";
                payload_url := Some "https://a.b/";
                payload_custom := Some "my code" |} in
  let w := fresh [] (λ n, n) in
  let out := Ok (jsonify [("error", JString "Invalid characters in custom code")], 400%Z) in
  Str.all custom_char "my code" = false
  ∧ handle 1 (POST_shorten 6 req) w = Some (out, w)
  ∧ ¬ is_created out.
Proof.
  intros req w out.
  assert (Hall : Str.all custom_char "my code" = false) by reflexivity.
  assert (Hs : handle 1 (POST_shorten 6 req) w = Some (out, w))
    by (vm_compute; reflexivity).
  split; [exact Hall|]. split; [exact Hs|].
  destruct (custom_code_charset 1 6 req w "my code" out w eq_refl
              ltac:(discriminate) Hs) as (_ & Hrej & _).
  exact (proj1 (Hrej Hall)).
Defined.

(** * Further properties of the views *)

(** ** The paths through [shorten] *)

Lemma persist_ok (now : Z) (req : request) (u code : string)
    (w : world) (t : gmap string UrlRecord) :
  conn w = Some t →
  t !! code = None →
  available 2 (faults w) = true →
  persist now req u code w
  = Some (created now req code,
          {| disk := <[code := {| url := u; created_at := now; clicks := 0 |}]> t;
             conn := Some (<[code := {| url := u; created_at := now; clicks := 0 |}]> t);
             faults := drop 2 (faults w); entropy := entropy w; drawn := drawn w |}).
Proof.
  intros Hconn Hfree Hav. destruct w as [d c fs e n]. simpl in Hconn. subst c.
  unfold persist, created; unfold_M. rewrite Hfree.
  destruct fs as [|[] [|[] fs]]; simpl; try discriminate Hav; reflexivity.
Qed.

(** With a URL that the validator accepts, [shorten] opens the connection
    and continues with the custom code or the generator. *)
Lemma shorten_valid_url (fuel : nat) (now : Z) (req : request) (w : world) (u : string) :
  validate_and_normalize_url (payload_url req) = Ok (Some u) →
  handle fuel (POST_shorten now req) w
  = match shorten_tail fuel now req u (set_conn (Some (disk w)) (set_conn None w)) with
    | Some (r, w') => Some (r, close_db w')
    | None => None
    end.
Proof.
  intros Hv. pose proof (validate_nonempty_result _ _ Hv) as Hu.
  unfold handle, serve, shorten. rewrite bind_unfold. unfold lift. rewrite Hv.
  destruct u as [|c0 u]; [congruence|].
  cbn [truthy negb]. rewrite bind_unfold, get_db_unfold. reflexivity.
Qed.

Lemma shorten_refused_url (fuel : nat) (now : Z) (req : request) (w : world) :
  validate_and_normalize_url (payload_url req) = Ok None →
  handle fuel (POST_shorten now req) w
  = Some (Ok (jsonify [("error", JString "Invalid URL")], 400%Z),
          between_requests (disk w) (faults w) w).
Proof.
  intros Hv. unfold handle, serve, shorten. rewrite bind_unfold. unfold lift.
  rewrite Hv. reflexivity.
Qed.

(** A URL that the validator refuses is answered with 400 "Invalid URL"
    before the database is touched: no connection is opened, no statement
    is sent (the fault plan is as before) and no random value is drawn,
    whatever the custom code and whatever the table holds. *)
Theorem shorten_invalid_url (fuel : nat) (now : Z) (req : request) (w : world) :
  validate_and_normalize_url (payload_url req) = Ok None →
  handle fuel (POST_shorten now req) w
  = Some (Ok (jsonify [("error", JString "Invalid URL")], 400%Z),
          between_requests (disk w) (faults w) w).
Proof. exact (shorten_refused_url fuel now req w). Qed.

Lemma shorten_invalid_url_witness :
  let req := {| host_url := "http://localhost:5000/";
                payload_url := Some "ftp://x.com";
                payload_custom := Some "abc" |} in
  let w := {| disk := {["abc" := example_row]}; conn := None;
              faults := [true]; entropy := λ n, n; drawn := 0 |} in
  handle 0 (POST_shorten 7 req) w
  = Some (Ok (jsonify [("error", JString "Invalid URL")], 400%Z), w).
Proof.
  intros req w.
  apply (shorten_invalid_url 0 7 req w). vm_compute. reflexivity.
Defined.

(** A custom code that is in the table is answered with 409 "Custom code
    in use" (URL and characters being valid, the lookup succeeding), and
    the table stays as it is: the row under that code is not overwritten. *)
Theorem shorten_custom_in_use
    (fuel : nat) (now : Z) (req : request) (w : world)
    (u custom : string) (row : UrlRecord) :
  validate_and_normalize_url (payload_url req) = Ok (Some u) →
  payload_custom req = Some custom →
  custom ≠ "" →
  Str.all custom_char custom = true →
  disk w !! custom = Some row →
  available 1 (faults w) = true →
  handle fuel (POST_shorten now req) w
  = Some (Ok (jsonify [("error", JString "Custom code in use")], 409%Z),
          between_requests (disk w) (drop 1 (faults w)) w).
Proof.
  intros Hv Hc Hne Hall Hrow Hav.
  rewrite (shorten_valid_url _ _ _ _ _ Hv). unfold shorten_tail. rewrite Hc.
  destruct custom as [|c1 custom]; [congruence|].
  cbn [truthy from_option]. unfold id. rewrite Hall. cbn [negb].
  rewrite bind_unfold, (execute_select_unfold _ _ (disk w)) by reflexivity.
  cbn [faults set_conn]. rewrite (hd_available0 0) by exact Hav.
  rewrite Hrow. destruct w as [d c fs e n]. simpl.
  now destruct fs.
Qed.

Lemma shorten_custom_in_use_witness :
  let req := {| host_url := "http://localhost:5000/";
                payload_url := Some "https://a.b/";
                payload_custom := Some "ahovCJ" |} in
  handle 0 (POST_shorten 9 req) example_world
  = Some (Ok (jsonify [("error", JString "Custom code in use")], 409%Z), example_world).
Proof.
  intros req.
  apply (shorten_custom_in_use 0 9 req example_world "https://a.b/" "ahovCJ"
           {| url := "http://example.com"; created_at := 5; clicks := 0 |});
    try reflexivity.
  discriminate.
Defined.

(** A valid URL with a valid custom code that is free is stored (three
    statements: SELECT, INSERT, commit): the answer is 201 with the short
    URL [host_url] (without its trailing slashes) + "/" + custom code, and
    the table gains the row (validated URL, time of the request, 0 clicks)
    under that code; no random value is drawn. *)
Theorem shorten_custom_created
    (fuel : nat) (now : Z) (req : request) (w : world) (u custom : string) :
  validate_and_normalize_url (payload_url req) = Ok (Some u) →
  payload_custom req = Some custom →
  custom ≠ "" →
  Str.all custom_char custom = true →
  disk w !! custom = None →
  available 3 (faults w) = true →
  handle fuel (POST_shorten now req) w
  = Some (Ok (jsonify [("short_url",
                        JString (Str.rstrip (Ascii.eqb "/") (host_url req)
                                 +:+ "/" +:+ custom))], 201%Z),
          between_requests
            (<[custom := {| url := u; created_at := now; clicks := 0 |}]> (disk w))
            (drop 3 (faults w)) w).
Proof.
  intros Hv Hc Hne Hall Hfree Hav.
  rewrite (shorten_valid_url _ _ _ _ _ Hv). unfold shorten_tail. rewrite Hc.
  destruct custom as [|c1 custom]; [congruence|].
  cbn [truthy from_option]. unfold id. rewrite Hall. cbn [negb].
  rewrite bind_unfold, (execute_select_unfold _ _ (disk w)) by reflexivity.
  cbn [faults set_conn]. rewrite (hd_available0 2) by exact Hav.
  rewrite Hfree.
  rewrite (persist_ok now req u _ _ (disk w)); [| reflexivity | exact Hfree |].
  - unfold created, close_db, between_requests, set_conn, set_faults. simpl.
    do 3 f_equal. now destruct (faults w) as [|? [|? [|? ?]]].
  - simpl. apply available_S in Hav as [_ Hav].
    unfold available in *. now destruct (faults w).
Qed.

Lemma shorten_custom_created_witness :
  let req := {| host_url := "http://localhost:5000//";
                payload_url := Some " example.com ";
                payload_custom := Some "my-code_1" |} in
  let w := fresh [false] (λ n, n) in
  handle 0 (POST_shorten 9 req) w
  = Some (Ok (jsonify [("short_url", JString "http://localhost:5000/my-code_1")], 201%Z),
          between_requests
            {["my-code_1" := {| url := "http://example.com"; created_at := 9;
                                clicks := 0 |}]} [] w).
Proof.
  intros req w.
  apply (shorten_custom_created 0 9 req w "http://example.com" "my-code_1");
    try reflexivity.
  discriminate.
Defined.

Lemma available_nil (n : nat) : available n [] = true.
Proof. unfold available. now rewrite take_nil. Qed.

Lemma available_le (m n : nat) (fs : list bool) :
  available m fs = true → (n ≤ m)%nat → available n fs = true.
Proof.
  revert m fs. induction n as [|n IH]; intros m fs H Hle; [reflexivity|].
  destruct m as [|m]; [lia|].
  destruct fs as [|b fs]; [apply available_nil|].
  unfold available in *. simpl in *.
  apply andb_true_iff in H as [-> H]. simpl. apply (IH m); [exact H | lia].
Qed.

Lemma available_drop (j n : nat) (fs : list bool) :
  available (j + n) fs = true → available n (drop j fs) = true.
Proof.
  revert fs. induction j as [|j IH]; intros fs H; [exact H|].
  destruct fs as [|b fs]; [apply available_nil|].
  simpl. apply IH. unfold available in *. simpl in H.
  apply andb_true_iff in H. tauto.
Qed.

(** Without a custom code (absent or empty), a valid URL is stored under
    the first candidate of the generator that is free: if the first [k]
    candidates are taken, the next is free and no statement fails, the
    answer is 201 with that candidate in the short URL; [k + 1] SELECTs,
    the INSERT and the commit were sent and [6 (k + 1)] random values
    drawn. *)
Theorem shorten_random_created
    (fuel : nat) (now : Z) (req : request) (w : world) (u : string) (k : nat) :
  validate_and_normalize_url (payload_url req) = Ok (Some u) →
  truthy (payload_custom req) = false →
  (∀ j, j < k → is_Some (disk w !! candidate w SHORT_CODE_LENGTH j)) →
  disk w !! candidate w SHORT_CODE_LENGTH k = None →
  available (k + 3) (faults w) = true →
  k < fuel →
  handle fuel (POST_shorten now req) w
  = Some (Ok (jsonify [("short_url",
                        JString (Str.rstrip (Ascii.eqb "/") (host_url req)
                                 +:+ "/" +:+ candidate w SHORT_CODE_LENGTH k))], 201%Z),
          {| disk := <[candidate w SHORT_CODE_LENGTH k :=
                         {| url := u; created_at := now; clicks := 0 |}]> (disk w);
             conn := None;
             faults := drop (k + 3) (faults w);
             entropy := entropy w;
             drawn := drawn w + 6 * (k + 1) |}).
Proof.
  intros Hv Hc Hbefore Hfree Hav Hfuel.
  rewrite (shorten_valid_url _ _ _ _ _ Hv). unfold shorten_tail. rewrite Hc.
  set (w0 := set_conn (Some (disk w)) (set_conn None w)).
  rewrite bind_unfold.
  rewrite (generate_code_finds SHORT_CODE_LENGTH k w0 fuel); trivial.
  2: { apply (available_le (k + 3)); [exact Hav | lia]. }
  change (candidate w0 SHORT_CODE_LENGTH k) with (candidate w SHORT_CODE_LENGTH k).
  rewrite (persist_ok now req u _ _ (disk w)); [| reflexivity | exact Hfree |].
  - unfold created, close_db, after_attempts, set_conn. simpl.
    do 3 f_equal.
    + rewrite drop_drop. f_equal. lia.
    + unfold SHORT_CODE_LENGTH. lia.
  - simpl. apply available_drop.
    apply (available_le (k + 3)); [exact Hav | lia].
Qed.

Lemma shorten_random_created_witness :
  let req := {| host_url := "http://localhost:5000/";
                payload_url := Some "https://a.b/";
                payload_custom := Some "" |} in
  handle 2 (POST_shorten 9 req)
    {| disk := {["ahovCJ" := example_row]}; conn := None;
       faults := []; entropy := λ n, n * 7; drawn := 0 |}
  = Some (Ok (jsonify [("short_url", JString "http://localhost:5000/QX4bip")], 201%Z),
          {| disk := <["QX4bip" := {| url := "https://a.b/"; created_at := 9;
                                      clicks := 0 |}]> {["ahovCJ" := example_row]};
             conn := None; faults := []; entropy := λ n, n * 7; drawn := 12 |}).
Proof.
  intros req.
  assert (Hbefore : ∀ j, j < 1 →
            is_Some (({["ahovCJ" := example_row]} : gmap string UrlRecord)
                     !! draw (λ n, n * 7) (0 + j * SHORT_CODE_LENGTH) SHORT_CODE_LENGTH)).
  { intros j Hj. assert (j = 0) as -> by lia. vm_compute. eauto. }
  exact (shorten_random_created 2 9 req
           {| disk := {["ahovCJ" := example_row]}; conn := None;
              faults := []; entropy := λ n, n * 7; drawn := 0 |}
           "https://a.b/" 1 eq_refl eq_refl Hbefore eq_refl eq_refl
           (le_n 2)).
Defined.

Lemma string_app_inv_head (a b c : string) : a +:+ b = a +:+ c → b = c.
Proof. induction a as [|x a IH]; simpl; intros H; [exact H|]. injection H. auto. Qed.

(** What [shorten] stored is what [stats] reports: after a 201 for a
    code, a [stats] request for that code whose lookup succeeds answers
    200 with the code, the validated URL, the time of the [shorten]
    request and 0 clicks. *)
Theorem shorten_then_stats
    (fuel : nat) (now : Z) (req : request) (w : world) (code : string) (w1 : world) :
  handle fuel (POST_shorten now req) w = Some (created now req code, w1) →
  available 1 (faults w1) = true →
  ∃ u, validate_and_normalize_url (payload_url req) = Ok (Some u)
       ∧ handle fuel (GET_stats code) w1
         = Some (Ok (jsonify [("code", JString code);
                              ("url", JString u);
                              ("created_at", JDatetime now);
                              ("clicks", JNumber 0)], 200%Z),
                 between_requests (disk w1) (drop 1 (faults w1)) w1).
Proof.
  intros Hs Hav.
  apply shorten_cases in Hs
    as [_ [[_ Hno]|(u & code' & Hv & _ & Hd & Hout & Hcode)]].
  { exfalso. apply Hno. unfold created, is_created. eauto. }
  assert (code' = code) as ->.
  { unfold created in Hout. injection Hout as Hout.
    do 2 apply string_app_inv_head in Hout. congruence. }
  exists u. split; [exact Hv|].
  rewrite stats_unfold. cbv zeta.
  rewrite (hd_available0 0) by exact Hav.
  now rewrite Hd, lookup_insert_eq.
Qed.

Lemma shorten_then_stats_witness :
  ∃ u, validate_and_normalize_url (Some "example.com") = Ok (Some u)
       ∧ handle 1 (GET_stats "ahovCJ") example_world
         = Some (Ok (jsonify [("code", JString "ahovCJ");
                              ("url", JString u);
                              ("created_at", JDatetime 5);
                              ("clicks", JNumber 0)], 200%Z),
                 example_world).
Proof.
  apply (shorten_then_stats 1 5 example_request (fresh [] (λ n, n * 7))
           "ahovCJ" example_world).
  - vm_compute. reflexivity.
  - reflexivity.
Defined.

(** ** The answers of the views *)










(** What each outcome means for the table.  A [shorten] request either
    answers 201 for a code that was free, and then the table is the old
    one with the row (validated URL, time of the request, 0 clicks) under
    that code, or gives any other outcome and leaves the table unchanged.
    A [redirect_code] request either got through lookup, UPDATE and commit
    of a stored code, and then the table is the old one with that row's
    count one higher and the outcome is what [flask.redirect] gives for
    the stored URL (302, or [ValueError] for a URL with CR or LF), or
    it raised [OperationalError] or answered 404 and left the table
    unchanged.  A [stats] request leaves the table unchanged. *)
Theorem request_effect_on_table
    (fuel : nat) (c : call) (w : world) (out : result response) (w' : world) :
  handle fuel c w = Some (out, w') →
  match c with
  | POST_shorten now req =>
      (∃ code u,
         out = Ok (jsonify [("short_url",
                             JString (Str.rstrip (Ascii.eqb "/") (host_url req)
                                      +:+ "/" +:+ code))], 201%Z)
         ∧ validate_and_normalize_url (payload_url req) = Ok (Some u)
         ∧ disk w !! code = None
         ∧ disk w' = <[code := {| url := u; created_at := now; clicks := 0 |}]> (disk w))
      ∨ ((∀ b, out ≠ Ok (b, 201%Z)) ∧ disk w' = disk w)
  | GET_code code =>
      (∃ row,
         disk w !! code = Some row
         ∧ out = redirect (url row)
         ∧ disk w' = <[code := {| url := url row; created_at := created_at row;
                                  clicks := clicks row + 1 |}]> (disk w))
      ∨ ((out = Err OperationalError ∨ out = Ok (Text "Not found", 404%Z))
         ∧ disk w' = disk w)
  | GET_stats code => disk w' = disk w
  end.
Proof.
  destruct c as [now req|code|code]; intros H.
  - apply shorten_cases in H as [_ [[Hd Hno]|(u & code & Hv & Hfree & Hd & Hout & _)]].
    + right. split; [|exact Hd]. intros b ->. apply Hno. now exists b.
    + left. exists code, u. auto.
  - rewrite redirect_code_unfold in H. cbv zeta in H.
    destruct (hd false (faults w)); [injection H as <- <-; right; auto|].
    destruct (disk w !! code) as [row|] eqn:Hrow; [|injection H as <- <-; right; auto].
    destruct (hd false (drop 1 (faults w))); [injection H as <- <-; right; auto|].
    destruct (hd false (drop 2 (faults w))); injection H as <- <-; [right; auto|].
    left. exists row. repeat split; trivial.
    simpl. apply map_eq. intros k.
    destruct (decide (code = k)) as [->|Hne].
    + now rewrite lookup_alter_eq, lookup_insert_eq, Hrow.
    + now rewrite lookup_alter_ne, lookup_insert_ne.
  - destruct (stats_read_only fuel code w) as [out' H'].
    rewrite H' in H. now injection H as <- <-.
Qed.

Lemma request_effect_on_table_witness :
  let u := "http://example.com/a" +:+ String (chr 10) "b" in
  let row := {| url := u; created_at := 5; clicks := 0 |} in
  let w := {| disk := {["nl" := row]}; conn := None; faults := [];
              entropy := λ n, n; drawn := 0 |} in
  ∃ w', handle 0 (GET_code "nl") w = Some (Err ValueError, w')
        ∧ disk w' = <["nl" := {| url := u; created_at := 5; clicks := 1 |}]> (disk w).
Proof.
  intros u row w.
  destruct (handle 0 (GET_code "nl") w) as [[out w']|] eqn:H;
    [|vm_compute in H; discriminate H].
  pose proof (request_effect_on_table 0 (GET_code "nl") w out w' H) as Heff.
  assert (Hout : out = Err ValueError).
  { vm_compute in H. now injection H as <- _. }
  subst out. exists w'. split; [reflexivity|].
  cbv beta iota in Heff.
  destruct Heff as [(row' & Hrow' & _ & Hd)|[[Ho|Ho] _]]; try discriminate Ho.
  vm_compute in Hrow'. injection Hrow' as <-. exact Hd.
Defined.

(** ** Counting clicks over any sequence of requests *)

Lemma handle_clicks (fuel : nat) (c : call) (w : world) (out : result response)
    (w' : world) (code : string) (row : UrlRecord) :
  handle fuel c w = Some (out, w') →
  disk w !! code = Some row →
  ∃ row', disk w' !! code = Some row'
          ∧ clicks row' = (clicks row + if redirected code c out then 1 else 0)%Z.
Proof.
  intros H Hrow. destruct c as [now req|code'|code'].
  - exists row. split; [|simpl; lia].
    apply shorten_cases in H as [_ [[-> _]|(u & code' & _ & Hfree & -> & _)]];
      [exact Hrow|].
    rewrite lookup_insert_ne by congruence. exact Hrow.
  - rewrite redirect_code_unfold in H. cbv zeta in H.
    destruct (hd false (faults w));
      [injection H as <- <-; exists row; split; [exact Hrow | simpl; lia]|].
    destruct (disk w !! code') as [row0|] eqn:Hrow0;
      [|injection H as <- <-; exists row; split; [exact Hrow | simpl; lia]].
    destruct (hd false (drop 1 (faults w)));
      [injection H as <- <-; exists row; split; [exact Hrow | simpl; lia]|].
    destruct (hd false (drop 2 (faults w)));
      [injection H as <- <-; exists row; split; [exact Hrow | simpl; lia]|].
    injection H as <- <-. cbn [between_requests disk].
    assert (Hred : redirected code (GET_code code') (redirect (url row0))
                   = String.eqb code' code).
    { unfold redirect. now destruct (_ || _). }
    rewrite Hred.
    destruct (String.eqb_spec code' code) as [->|Hne].
    + exists (click row). rewrite lookup_alter_eq, Hrow. split; reflexivity.
    + exists row. rewrite lookup_alter_ne by exact Hne. split; [exact Hrow | lia].
  - exists row. rewrite stats_unfold in H. cbv zeta in H.
    destruct (hd false (faults w)); injection H as <- <-;
      (split; [exact Hrow|]).
    + simpl. lia.
    + destruct (disk w !! code'); simpl; lia.
Qed.

Lemma clicks_over_requests (fuel : nat) (code : string) (cs : list call) :
  ∀ (w : world) (outs : list (result response)) (w' : world) (row : UrlRecord),
    serve_all fuel cs w = Some (outs, w') →
    disk w !! code = Some row →
    ∃ row', disk w' !! code = Some row'
            ∧ clicks row' = (clicks row + Z.of_nat (redirects code cs outs))%Z.
Proof.
  induction cs as [|c cs IH]; intros w outs w' row H Hrow.
  - injection H as <- <-. exists row. split; [exact Hrow | simpl; lia].
  - simpl in H.
    destruct (handle fuel c w) as [[out w1]|] eqn:Hc; [|discriminate].
    destruct (serve_all fuel cs w1) as [[outs1 w2]|] eqn:Hcs; [|discriminate].
    injection H as <- <-.
    destruct (handle_clicks _ _ _ _ _ code row Hc Hrow) as (row1 & Hrow1 & Hc1).
    destruct (IH _ _ _ row1 Hcs Hrow1) as (row' & Hrow' & Hc').
    exists row'. split; [exact Hrow'|].
    rewrite Hc', Hc1. cbn [redirects].
    destruct (redirected code c out); lia.
Qed.

(** From a reachable state on, over any sequence of requests (of all
    three kinds, failing or not), the count of a stored code grows by
    exactly the number of [GET /<code>] requests for that code that got as
    far as [flask.redirect]: those answered with the 302 redirect and
    those where [flask.redirect] raised [ValueError] for a stored URL with
    CR or LF (the increment is committed before).  Requests that failed
    earlier, requests for other codes, [shorten] and [stats] do not
    count. *)
Theorem clicks_count_redirects
    (fuel : nat) (code : string) (cs : list call)
    (w : world) (outs : list (result response)) (w' : world) (row : UrlRecord) :
  reachable w →
  serve_all fuel cs w = Some (outs, w') →
  disk w !! code = Some row →
  ∃ row', disk w' !! code = Some row'
          ∧ url row' = url row
          ∧ clicks row' = (clicks row + Z.of_nat (redirects code cs outs))%Z.
Proof.
  intros _ H Hrow.
  destruct (clicks_over_requests fuel code cs w outs w' row H Hrow)
    as (row' & Hrow' & Hc).
  exists row'. split; [exact Hrow'|]. split; [|exact Hc].
  clear Hc. revert w outs w' row row' H Hrow Hrow'.
  induction cs as [|c cs IH]; intros w outs w' row row' H Hrow Hrow'.
  - injection H as <- <-. congruence.
  - simpl in H.
    destruct (handle fuel c w) as [[out w1]|] eqn:Hc; [|discriminate].
    destruct (serve_all fuel cs w1) as [[outs1 w2]|] eqn:Hcs; [|discriminate].
    injection H as <- <-.
    apply handle_cases in Hc
      as [Hd|[(code0 & row0 & _ & Hrow0 & Hd)
             |(now & req & u & code0 & _ & _ & _ & Hfree & Hd)]].
    + apply (IH w1 outs1 w2 row row' Hcs); [now rewrite Hd | exact Hrow'].
    + destruct (decide (code0 = code)) as [->|Hne].
      * transitivity (url (click row)); [|reflexivity].
        apply (IH w1 outs1 w2 (click row) row' Hcs); [|exact Hrow'].
        rewrite Hd, lookup_alter_eq, Hrow. reflexivity.
      * apply (IH w1 outs1 w2 row row' Hcs); [|exact Hrow'].
        now rewrite Hd, lookup_alter_ne.
    + apply (IH w1 outs1 w2 row row' Hcs); [|exact Hrow'].
      rewrite Hd, lookup_insert_ne; [exact Hrow | congruence].
Qed.

Lemma clicks_count_redirects_witness :
  let w := {| disk := disk example_world; conn := None;
              faults := [false; false; false; false; true];
              entropy := λ n, n * 7; drawn := 6 |} in
  let cs := [GET_code "ahovCJ"; GET_code "ahovCJ"; GET_stats "ahovCJ";
             GET_code "nope"; GET_code "ahovCJ"] in
  ∃ outs w' row',
    serve_all 0 cs w = Some (outs, w')
    ∧ redirects "ahovCJ" cs outs = 2
    ∧ disk w' !! "ahovCJ" = Some row' ∧ clicks row' = 2%Z.
Proof.
  intros w cs.
  assert (Hw : reachable w).
  { apply (reachable_step 1 (POST_shorten 5 example_request)
             (fresh [false; false; false; false; false; false; false; true]
                (λ n, n * 7))
             (Ok (jsonify [("short_url", JString "http://localhost:5000/ahovCJ")],
                  201%Z))).
    - apply reachable_fresh.
    - vm_compute. reflexivity. }
  destruct (serve_all 0 cs w) as [[outs w']|] eqn:H; [|vm_compute in H; discriminate H].
  destruct (clicks_count_redirects 0 "ahovCJ" cs w outs w'
              {| url := "http://example.com"; created_at := 5; clicks := 0 |}
              Hw H eq_refl)
    as (row' & Hrow' & _ & Hc).
  exists outs, w', row'.
  assert (Hn : redirects "ahovCJ" cs outs = 2).
  { vm_compute in H. injection H as <- _. reflexivity. }
  split; [reflexivity|]. split; [exact Hn|]. split; [exact Hrow'|].
  rewrite Hc, Hn. reflexivity.
Defined.

(** ** Codes are handed out once *)

Lemma handle_keeps_rows (fuel : nat) (c : call) (w : world) (out : result response)
    (w' : world) (code : string) :
  handle fuel c w = Some (out, w') →
  is_Some (disk w !! code) → is_Some (disk w' !! code).
Proof.
  intros H [row Hrow].
  destruct (handle_clicks _ _ _ _ _ code row H Hrow) as (row' & Hrow' & _). eauto.
Qed.

Lemma serve_all_keeps_rows (fuel : nat) (code : string) (cs : list call) :
  ∀ (w : world) (outs : list (result response)) (w' : world),
    serve_all fuel cs w = Some (outs, w') →
    is_Some (disk w !! code) → is_Some (disk w' !! code).
Proof.
  induction cs as [|c cs IH]; intros w outs w' H Hin.
  - now injection H as <- <-.
  - simpl in H.
    destruct (handle fuel c w) as [[out w1]|] eqn:Hc; [|discriminate].
    destruct (serve_all fuel cs w1) as [[outs1 w2]|] eqn:Hcs; [|discriminate].
    injection H as <- <-.
    apply (IH _ _ _ Hcs). exact (handle_keeps_rows _ _ _ _ _ code Hc Hin).
Qed.

(** A code that [shorten] handed out with a 201 is never handed out
    again: whatever requests are served in between, a later 201 carries a
    different code (no view deletes a row, and a 201 is only given for a
    code that was free). *)
Theorem codes_not_reused
    (fuel fuel1 fuel2 : nat) (now1 now2 : Z) (req1 req2 : request)
    (code1 code2 : string) (cs : list call) (outs : list (result response))
    (w w1 w2 w3 : world) :
  handle fuel1 (POST_shorten now1 req1) w = Some (created now1 req1 code1, w1) →
  serve_all fuel cs w1 = Some (outs, w2) →
  handle fuel2 (POST_shorten now2 req2) w2 = Some (created now2 req2 code2, w3) →
  code1 ≠ code2.
Proof.
  intros H1 Hcs H2.
  assert (Hcode : ∀ fuel now req code v v',
            handle fuel (POST_shorten now req) v = Some (created now req code, v') →
            disk v !! code = None ∧ is_Some (disk v' !! code)).
  { intros f now req code v v' H.
    apply shorten_cases in H as [_ [[_ Hno]|(u & code' & _ & Hfree & Hd & Hout & _)]].
    - exfalso. apply Hno. unfold created, is_created. eauto.
    - unfold created in Hout. injection Hout as Hout.
      do 2 apply string_app_inv_head in Hout. subst code'.
      split; [exact Hfree|]. rewrite Hd, lookup_insert_eq. eauto. }
  apply Hcode in H1 as [_ Hin1]. apply Hcode in H2 as [Hfree2 _].
  apply (serve_all_keeps_rows _ code1 _ _ _ _ Hcs) in Hin1.
  intros ->. rewrite Hfree2 in Hin1. now destruct Hin1.
Qed.

Lemma codes_not_reused_witness : "ahovCJ" ≠ "QX4bip".
Proof.
  apply (codes_not_reused 0 1 2 5 9 example_request
           {| host_url := "http://localhost:5000/";
              payload_url := Some "https://a.b/";
              payload_custom := None |}
           "ahovCJ" "QX4bip" [GET_code "ahovCJ"]
           [redirect "http://example.com"]
           (fresh [] (λ n, n * 7))
           example_world
           {| disk := {["ahovCJ" := {| url := "http://example.com";
                                       created_at := 5; clicks := 1 |}]};
              conn := None; faults := []; entropy := λ n, n * 7; drawn := 6 |}
           {| disk := <["QX4bip" := {| url := "https://a.b/"; created_at := 9;
                                       clicks := 0 |}]>
                        {["ahovCJ" := {| url := "http://example.com";
                                         created_at := 5; clicks := 1 |}]};
              conn := None; faults := []; entropy := λ n, n * 7; drawn := 12 |});
    vm_compute; reflexivity.
Defined.

(** ** The loop of the generator has no exit but a free code *)

(** While every candidate that the random source yields is taken (and no
    SELECT fails), [generate_code] does not return, whatever the number of
    iterations; so a [shorten] request without custom code does not get
    an answer then. *)
Theorem generate_code_never_returns (length : nat) (fuel : nat) :
  ∀ w : world,
    (∀ k, is_Some (table w !! candidate w length k)) →
    quiet (faults w) = true →
    generate_code fuel length w = None.
Proof.
  induction fuel as [|fuel IH]; intros w Htaken Hq; [reflexivity|].
  rewrite generate_code_step.
  rewrite <- (drop_0 (faults w)), (hd_quiet 0) by exact Hq.
  destruct (Htaken 0) as [row ->].
  apply IH.
  - intros k. rewrite candidate_after, table_after. apply Htaken.
  - simpl. now apply quiet_drop.
Qed.

Lemma generate_code_never_returns_witness :
  generate_code 1000 0
    {| disk := {["" := example_row]}; conn := None; faults := [];
       entropy := λ n, n; drawn := 0 |} = None.
Proof.
  apply (generate_code_never_returns 0 1000).
  - intros k. vm_compute. eauto.
  - reflexivity.
Defined.

(** ** What the validator returns *)

Lemma lstrip_head (p : ascii → bool) (s : string) :
  Str.lstrip p s = "" ∨ ∃ c t, Str.lstrip p s = String c t ∧ p c = false.
Proof.
  induction s as [|c s IH]; simpl; [now left|].
  destruct (p c) eqn:Hc; [exact IH|]. right. eauto.
Qed.

Lemma rstrip_cons (p : ascii → bool) (c : ascii) (t : string) :
  p c = false ∨ Str.rstrip p t ≠ "" →
  Str.rstrip p (String c t) = String c (Str.rstrip p t).
Proof.
  intros H. simpl. destruct (Str.rstrip p t) eqn:Ht; [|reflexivity].
  destruct H as [->|H]; [reflexivity | congruence].
Qed.

Lemma rstrip_idem (p : ascii → bool) (s : string) :
  Str.rstrip p (Str.rstrip p s) = Str.rstrip p s.
Proof.
  induction s as [|c s IH]; [reflexivity|].
  cbn [Str.rstrip]. destruct (Str.rstrip p s) as [|c' r] eqn:Hr.
  - destruct (p c) eqn:Hc; [reflexivity|]. simpl. now rewrite Hc.
  - rewrite rstrip_cons; [now rewrite IH | right; rewrite IH; discriminate].
Qed.

Lemma rstrip_app (p : ascii → bool) (a t : string) :
  Str.rstrip p t ≠ "" → Str.rstrip p (a +:+ t) = a +:+ Str.rstrip p t.
Proof.
  intros Ht. induction a as [|c a IH]; [reflexivity|].
  cbn [String.app]. change (String c a +:+ t) with (String c (a +:+ t)).
  rewrite rstrip_cons; [now rewrite IH|].
  right. rewrite IH. now destruct a.
Qed.

Lemma strip_idem (s : string) : Str.strip (Str.strip s) = Str.strip s.
Proof.
  unfold Str.strip.
  destruct (lstrip_head isspace s) as [->|(c & t & -> & Hc)]; [reflexivity|].
  rewrite (rstrip_cons _ _ _ (or_introl Hc)).
  cbn [Str.lstrip]. rewrite Hc.
  rewrite <- (rstrip_cons _ _ _ (or_introl Hc)). apply rstrip_idem.
Qed.

Lemma validate_stripped_shape (s u : string) :
  validate_stripped s = Ok (Some u) →
  (u = s ∧ ∃ p, urlparse s = Ok p ∧ scheme p ≠ "")
  ∨ (u = "http://" +:+ s ∧ ∃ p, urlparse s = Ok p ∧ scheme p = "").
Proof.
  unfold validate_stripped.
  destruct (urlparse s) as [p|e] eqn:Hp; cbn [mbind result_bind]; [|discriminate].
  destruct (String.eqb_spec (scheme p) "") as [Hs|Hs]; cbn [mbind result_bind].
  - destruct (urlparse ("http://" +:+ s)) as [p'|e]; cbn [mbind result_bind];
      [|discriminate].
    repeat case_match; try discriminate. intros [= <-]. right. eauto.
  - repeat case_match; try discriminate. intros [= <-]. left. eauto.
Qed.

Lemma strip_prefixed (s : string) :
  Str.strip ("http://" +:+ Str.strip s) = "http://" +:+ Str.strip s.
Proof.
  destruct (Str.strip s) as [|c t] eqn:Ht; [reflexivity|].
  unfold Str.strip at 1. change (Str.lstrip isspace ("http://" +:+ String c t))
    with ("http://" +:+ String c t).
  assert (Hr : Str.rstrip isspace (String c t) = String c t).
  { rewrite <- Ht. unfold Str.strip. apply rstrip_idem. }
  rewrite rstrip_app; rewrite Hr; [reflexivity | discriminate].
Qed.

Lemma validate_shape (s u : string) :
  validate_and_normalize_url (Some s) = Ok (Some u) →
  ((u = Str.strip s ∧ ∃ p, urlparse (Str.strip s) = Ok p ∧ scheme p ≠ "")
   ∨ (u = "http://" +:+ Str.strip s
      ∧ ∃ p, urlparse (Str.strip s) = Ok p ∧ scheme p = ""))
  ∧ Str.strip u = u.
Proof.
  intros H. destruct s as [|c s]; [discriminate|].
  rewrite validate_nonempty in H.
  apply validate_stripped_shape in H as [[-> Hp]|[-> Hp]].
  - split; [now left | apply strip_idem].
  - split; [now right | apply strip_prefixed].
Qed.

Lemma validate_again (original : option string) (u : string) :
  validate_and_normalize_url original = Ok (Some u) →
  validate_and_normalize_url (Some u) = Ok (Some u).
Proof.
  intros H.
  pose proof (validate_nonempty_result _ _ H) as Hne.
  pose proof (validate_sound _ _ H) as (p & Hp & Hsch & Hnet).
  assert (Hstrip : Str.strip u = u).
  { destruct original as [s|]; [|discriminate].
    exact (proj2 (validate_shape s u H)). }
  destruct u as [|c u]; [congruence|].
  rewrite validate_nonempty, Hstrip. unfold validate_stripped.
  rewrite Hp. cbn [mbind result_bind].
  assert (String.eqb (scheme p) "" = false) as ->
      by (destruct Hsch as [-> | ->]; reflexivity).
  cbn [mbind result_bind].
  assert (bool_decide (scheme p ∈ ["http"; "https"]) = true) as ->
      by (destruct Hsch as [-> | ->]; reflexivity).
  cbn [negb]. apply String.eqb_neq in Hnet. now rewrite Hnet.
Qed.

(** The string the validator returns is the input without the whitespace
    around it, or that with "http://" in front when [urlparse] found no
    scheme in it: nothing else of the input is changed.  The result has no
    whitespace around it. *)
Theorem validate_result_shape (s u : string) :
  validate_and_normalize_url (Some s) = Ok (Some u) →
  ((u = Str.strip s ∧ ∃ p, urlparse (Str.strip s) = Ok p ∧ scheme p ≠ "")
   ∨ (u = "http://" +:+ Str.strip s
      ∧ ∃ p, urlparse (Str.strip s) = Ok p ∧ scheme p = ""))
  ∧ Str.strip u = u.
Proof. apply validate_shape. Qed.

Lemma validate_result_shape_witness :
  let s := String (chr 9) " example.com/a b  " in
  validate_and_normalize_url (Some s) = Ok (Some "http://example.com/a b")
  ∧ Str.strip "http://example.com/a b" = "http://example.com/a b".
Proof.
  intros s.
  assert (H : validate_and_normalize_url (Some s) = Ok (Some "http://example.com/a b"))
    by (vm_compute; reflexivity).
  split; [exact H|].
  exact (proj2 (validate_result_shape s _ H)).
Defined.

(** Normalisation is idempotent: a URL that the validator returned is
    accepted again and returned as it is. *)
Theorem validate_idempotent (original : option string) (u : string) :
  validate_and_normalize_url original = Ok (Some u) →
  validate_and_normalize_url (Some u) = Ok (Some u).
Proof. exact (validate_again original u). Qed.

Lemma validate_idempotent_witness :
  validate_and_normalize_url (Some "http://example.com") = Ok (Some "http://example.com").
Proof.
  apply (validate_idempotent (Some " example.com ")). vm_compute. reflexivity.
Defined.

(** ** Plain host names are accepted *)

Lemma not_contains_find (c : ascii) (s : string) :
  Str.contains c s = false → Str.find c s = None.
Proof.
  induction s as [|a s IH]; simpl; trivial.
  intros H. apply orb_false_iff in H as [-> H]. now rewrite (IH H).
Qed.

Lemma slice_to_length (s : string) : Str.slice_to (String.length s) s = s.
Proof. induction s as [|c s IH]; simpl; congruence. Qed.

Lemma slice_from_length (s : string) : Str.slice_from (String.length s) s = "".
Proof. induction s as [|c s IH]; simpl; congruence. Qed.

Lemma host_char_classes (c : ascii) :
  host_char c = true →
  isspace c = false
  ∧ WHATWG_C0_CONTROL_OR_SPACE c = false
  ∧ UNSAFE_URL_BYTES_TO_REMOVE c = false
  ∧ Ascii.eqb c "/" = false.
Proof.
  destruct c as [[] [] [] [] [] [] [] []]; vm_compute; intros H;
    try discriminate H; repeat split.
Qed.

Lemma host_no (d : ascii) (h : string) :
  host_char d = false → Str.all host_char h = true → Str.contains d h = false.
Proof. apply all_not_contains. Qed.

Lemma urlparse_host (h : string) :
  h ≠ "" →
  Str.all host_char h = true →
  urlparse h = Ok {| scheme := ""; netloc := ""; path := h; params := "";
                     query := ""; fragment := "" |}.
Proof.
  intros Hne Hh. unfold urlparse, urlsplit.
  rewrite (all_lstrip_id _ host_char) by (trivial; apply host_char_classes).
  rewrite (all_remove_id _ host_char) by (trivial; apply host_char_classes).
  rewrite (not_contains_find ":") by now apply host_no.
  assert (Hslash : String.eqb (Str.slice_to 2 h) "//" = false).
  { destruct h as [|c h]; [congruence|]. simpl in Hh.
    apply andb_true_iff in Hh as [Hc _].
    apply host_char_classes in Hc as (_ & _ & _ & Hc).
    destruct h; simpl; now rewrite Hc. }
  rewrite Hslash. cbn [mbind result_bind].
  rewrite !(host_no _ h) by trivial. cbn [mbind result_bind].
  rewrite (host_no ";" h) by trivial. rewrite andb_false_r. reflexivity.
Qed.

Lemma lstrip_cons_false (p : ascii → bool) (c : ascii) (t : string) :
  p c = false → Str.lstrip p (String c t) = String c t.
Proof. intros H. simpl. now rewrite H. Qed.

Lemma urlparse_http_host (h : string) :
  Str.all host_char h = true →
  urlparse ("http://" +:+ h)
  = Ok {| scheme := "http"; netloc := h; path := ""; params := "";
          query := ""; fragment := "" |}.
Proof.
  intros Hh. unfold urlparse, urlsplit.
  change ("http://" +:+ h)
    with (String "h" (String "t" (String "t" (String "p" (String ":"
            (String "/" (String "/" h))))))).
  rewrite lstrip_cons_false by reflexivity.
  assert (Hrm : ∀ t, Str.all host_char t = true →
            Str.remove UNSAFE_URL_BYTES_TO_REMOVE
              (String "h" (String "t" (String "t" (String "p" (String ":"
                 (String "/" (String "/" t)))))))
            = String "h" (String "t" (String "t" (String "p" (String ":"
                 (String "/" (String "/" t))))))).
  { intros t Ht. cbn [Str.remove].
    change (UNSAFE_URL_BYTES_TO_REMOVE "h") with false.
    change (UNSAFE_URL_BYTES_TO_REMOVE "t") with false.
    change (UNSAFE_URL_BYTES_TO_REMOVE "p") with false.
    change (UNSAFE_URL_BYTES_TO_REMOVE ":") with false.
    change (UNSAFE_URL_BYTES_TO_REMOVE "/") with false.
    cbv iota.
    now rewrite (all_remove_id _ host_char) by (trivial; apply host_char_classes). }
  rewrite (Hrm h Hh).
  change (Str.find ":" (String "h" (String "t" (String "t" (String "p" (String ":"
            (String "/" (String "/" h))))))))
    with (Some 4).
  cbv iota.
  change (isascii "h" && isalpha "h"
          && Str.all scheme_chars
               (Str.slice_to 4 (String "h" (String "t" (String "t" (String "p"
                  (String ":" (String "/" (String "/" h)))))))))
    with true.
  cbv iota.
  change (Str.map ascii_lower
            (Str.slice_to 4 (String "h" (String "t" (String "t" (String "p"
               (String ":" (String "/" (String "/" h)))))))))
    with "http".
  change (Str.slice_from 5 (String "h" (String "t" (String "t" (String "p"
            (String ":" (String "/" (String "/" h))))))))
    with (String "/" (String "/" h)).
  change (String.eqb (Str.slice_to 2 (String "/" (String "/" h))) "//") with true.
  cbv iota.
  assert (Hnet : splitnetloc (String "/" (String "/" h)) 2 = (h, "")).
  { unfold splitnetloc, Str.find_from. cbn [foldl Str.slice_from].
    rewrite !(not_contains_find _ h) by now apply host_no.
    cbn [fmap option_fmap option_map]. unfold Str.slice.
    cbn [Str.slice_from String.length Nat.sub].
    rewrite Nat.sub_0_r, slice_to_length, slice_from_length. reflexivity. }
  rewrite Hnet. rewrite !(host_no _ h) by trivial.
  reflexivity.
Qed.

(** Every non-empty host name made of ASCII letters, digits, "." and "-"
    is accepted: without a scheme it is returned with "http://" in front,
    and with "http://" in front it is returned as it is. *)
Theorem validate_plain_host (h : string) :
  h ≠ "" →
  Str.all host_char h = true →
  validate_and_normalize_url (Some h) = Ok (Some ("http://" +:+ h))
  ∧ validate_and_normalize_url (Some ("http://" +:+ h)) = Ok (Some ("http://" +:+ h)).
Proof.
  intros Hne Hh.
  assert (H : validate_and_normalize_url (Some h) = Ok (Some ("http://" +:+ h))).
  { assert (Hv : validate_and_normalize_url (Some h) = validate_stripped (Str.strip h))
      by (destruct h; [congruence | apply validate_nonempty]).
    assert (Hstrip : Str.strip h = h).
    { unfold Str.strip.
      rewrite (all_lstrip_id _ host_char), (all_rstrip_id _ host_char);
        trivial; apply host_char_classes. }
    rewrite Hv, Hstrip. unfold validate_stripped.
    rewrite (urlparse_host h Hne Hh). cbn [mbind result_bind scheme String.eqb].
    rewrite (urlparse_http_host h Hh). cbn [mbind result_bind scheme netloc].
    change (bool_decide ("http" ∈ ["http"; "https"])) with true. cbn [negb].
    destruct h; [congruence | reflexivity]. }
  split; [exact H | exact (validate_again _ _ H)].
Qed.

Lemma validate_plain_host_witness :
  validate_and_normalize_url (Some "sub.example-1.com")
  = Ok (Some "http://sub.example-1.com")
  ∧ validate_and_normalize_url (Some "http://sub.example-1.com")
    = Ok (Some "http://sub.example-1.com").
Proof.
  apply (validate_plain_host "sub.example-1.com"); [discriminate | reflexivity].
Defined.
